(** * Mudras: gesture-to-CV quantiser and step sequencer

    A shallow embedding of the firmware sources and the properties of its
    scale-table generator, value mapper, CV codec and sequencer.

    Three sketches live in the repository.  [Firmware] embeds the most
    complete one (reset input, audio-taper threshold tables, separate
    storage for linear values); [Mudras] embeds mudras.ino, the earlier
    sketch with the play/record transition flag; the third sketch has the
    same functions, with the cursor renamed [count2] and the rows of its
    scale table in another order.  [Scales] embeds
    scales.cpp, whose generator the complete sketch repeats verbatim.

    Conventions.  C integers are [Z]; a [uint8_t] store is reduced with
    [u8].  A C array is a [list Z]; an access outside the array is
    undefined behaviour in C and is [None] here, so a run that returns
    [Some] performed only in-bounds accesses.  [float] is IEEE binary32,
    computed with the standard library's [SpecFloat] operations. *)

From Stdlib Require Import ZArith Lia Bool SpecFloat.
From stdpp Require Import base option list.

Local Open Scope Z_scope.

(** ** Machine integers and Arduino core helpers *)

Definition u8 (z : Z) : Z := z mod 256.

(** [long map(long x, long in_min, long in_max, long out_min, long out_max)]
    of the Arduino core: integer affine rescale, C division (truncation
    towards zero).  Every call site guards its argument so that the
    intermediate product stays far below 2^31. *)
Definition map_ (x in_min in_max out_min out_max : Z) : Z :=
  Z.quot ((x - in_min) * (out_max - out_min)) (in_max - in_min) + out_min.

(** The [constrain(amt, low, high)] macro of the Arduino core.  It is an
    expression: it yields the clamped value and assigns nothing. *)
Definition constrain (amt low high : Z) : Z :=
  if amt <? low then low else if amt >? high then high else amt.

(** Array read and write with the bounds written out. *)
Definition load (a : list Z) (i : Z) : option Z :=
  if 0 <=? i then a !! Z.to_nat i else None.

Definition store (a : list Z) (i v : Z) : option (list Z) :=
  if (0 <=? i) && (i <? Z.of_nat (length a))
  then Some (<[Z.to_nat i := v]> a) else None.


(** ** Scale table generator (scales.cpp) *)

Module Scales.

(** [enum ScaleType]: Major = 0, Minor, MinorPentatonic, HarmonicMinor,
    Diminished, WholeTone, Chromatic = 6, ScaleTypeCount = 7. *)
Definition ScaleTypeCount : Z := 7.

(** [const uint8_t scalePatterns[ScaleTypeCount][12]].  A row with fewer
    than 12 initialisers is completed with zeros, as C does. *)
Definition scalePatterns : list (list Z) :=
  [ [0; 2; 4; 5; 7; 9; 11; 255; 0; 0; 0; 0];        (* Major *)
    [0; 2; 3; 5; 7; 8; 10; 255; 0; 0; 0; 0];        (* Minor *)
    [0; 3; 5; 7; 10; 255; 0; 0; 0; 0; 0; 0];        (* Minor Pentatonic *)
    [0; 2; 3; 5; 7; 8; 11; 255; 0; 0; 0; 0];        (* Harmonic Minor *)
    [0; 1; 3; 4; 6; 7; 9; 10; 255; 0; 0; 0];        (* Diminished *)
    [0; 2; 4; 6; 8; 10; 255; 0; 0; 0; 0; 0];        (* Whole Tone *)
    [0; 1; 2; 3; 4; 5; 6; 7; 8; 9; 10; 11] ].       (* Chromatic *)

(** Result of running a loop of the generator: it finishes, or it reads
    the pattern row outside its 12 entries, or the fuel given to the model
    did not suffice (which [fuel_suffices] below excludes). *)
Inductive outcome (A : Type) : Type :=
| Done (a : A)
| OutOfBounds
| OutOfFuel.
Arguments Done {A} a.
Arguments OutOfBounds {A}.
Arguments OutOfFuel {A}.

(** The [while (noteIndex < 37)] loop for one scale.  [pat] is the row
    [scalePatterns[scaleIndex]], [row] is [fullScales[scaleIndex]]; the four
    counters are the [uint8_t] locals.  Returns the row and the final
    [noteIndex]. *)
Fixpoint fill (fuel : nat) (pat row : list Z)
    (noteIndex patternIndex octave octaveMultiplier : Z)
    : outcome (list Z * Z) :=
  match fuel with
  | O => OutOfFuel
  | S fuel' =>
    if noteIndex <? 37 then
      match load pat patternIndex with
      | None => OutOfBounds
      | Some p =>
        let '(patternIndex, octave, octaveMultiplier, stop) :=
          if p =? 255
          then (0, u8 (octave + 1), u8 (u8 (octave + 1) * 12),
                u8 (octave + 1) >=? 4)
          else (patternIndex, octave, octaveMultiplier, false) in
        if stop then Done (row, noteIndex)
        else
          match load pat patternIndex with
          | None => OutOfBounds
          | Some q =>
            fill fuel' pat
              (<[Z.to_nat noteIndex := u8 (q + octaveMultiplier)]> row)
              (u8 (noteIndex + 1)) (u8 (patternIndex + 1))
              octave octaveMultiplier
          end
      end
    else Done (row, noteIndex)
  end.

(** [memset(&row[from], value, n)]. *)
Definition memset (row : list Z) (from value n : Z) : list Z :=
  take (Z.to_nat from) row ++ replicate (Z.to_nat n) value
    ++ drop (Z.to_nat (from + n)) row.

(** Body of the [for] loop of [generateFullScales] for one pattern row,
    starting from the zero-initialised global row. *)
Definition generateRow (pat : list Z) : outcome (list Z) :=
  match fill 38 pat (replicate 37 0) 0 0 0 0 with
  | Done (row, noteIndex) => Done (memset row noteIndex 36 (37 - noteIndex))
  | OutOfBounds => OutOfBounds
  | OutOfFuel => OutOfFuel
  end.

Definition generateScale (scaleIndex : Z) : outcome (list Z) :=
  match scalePatterns !! Z.to_nat scaleIndex with
  | Some pat => generateRow pat
  | None => OutOfBounds
  end.

(** The [for (scaleIndex = 0; scaleIndex < ScaleTypeCount; scaleIndex++)]
    loop, row by row. *)
Fixpoint generateRows (pats : list (list Z)) : outcome (list (list Z)) :=
  match pats with
  | [] => Done []
  | pat :: rest =>
    match generateRow pat with
    | Done row =>
      match generateRows rest with
      | Done rows => Done (row :: rows)
      | OutOfBounds => OutOfBounds
      | OutOfFuel => OutOfFuel
      end
    | OutOfBounds => OutOfBounds
    | OutOfFuel => OutOfFuel
    end
  end.

Definition generateFullScales : outcome (list (list Z)) :=
  generateRows scalePatterns.

(** Number of notes of a pattern: the entries before the sentinel. *)
Fixpoint patternLength (pat : list Z) : nat :=
  match pat with
  | [] => 0
  | p :: rest => if p =? 255 then 0 else S (patternLength rest)
  end.

(** Non-decreasing list. *)
Fixpoint ascending (l : list Z) : bool :=
  match l with
  | a :: (b :: _) as tl => (a <=? b) && ascending tl
  | _ => true
  end.

(** Closed form of the row built from a pattern of [k] notes before its
    sentinel: entry [i] is note [i mod k] raised by [i / k] octaves while
    fewer than four octaves are written, and the padding 36 after that. *)
Definition expected (pat : list Z) (i : Z) : Z :=
  let k := Z.of_nat (patternLength pat) in
  if i <? 4 * k
  then u8 (nth (Z.to_nat (i mod k)) pat 0 + 12 * (i / k))
  else 36.

End Scales.

(** ** CV codec: semitone to volts to DAC code (binary32 arithmetic) *)

Module Codec.

(** IEEE binary32: 24 bits of precision, exponents below 128. *)
Definition prec : Z := 24.
Definition emax : Z := 128.

(** Conversion of an integer to [float] (round to nearest even). *)
Definition of_Z (z : Z) : spec_float := binary_normalize prec emax z 0 false.

(** The literals of the sources: [0.0f], [1.0f], [12.0f] and [3.3f], the
    last one being the binary32 number nearest to 3.3. *)
Definition f0_0 : spec_float := S754_zero false.
Definition f1_0 : spec_float := of_Z 1.
Definition f12_0 : spec_float := of_Z 12.
Definition f3_3 : spec_float := S754_finite false 13841203 (-22).

Definition RESOLUTION_12_BIT : Z := 4096.

Definition semitones_per_octave : spec_float := f12_0.
Definition volts_per_semitone : spec_float :=
  SFdiv prec emax f1_0 semitones_per_octave.

(** [ceil] of a [float], as an integer; a NaN or an infinity has none. *)
Definition ceil (x : spec_float) : option Z :=
  match x with
  | S754_zero _ => Some 0
  | S754_finite s m e =>
    let v := cond_Zopp s (Zpos m) in
    Some (if 0 <=? e then v * 2 ^ e else - ((- v) / 2 ^ (- e)))
  | _ => None
  end.

(** Conversion of the integral value to [uint32_t]: defined by C only when
    the value is representable. *)
Definition to_uint32 (z : Z) : option Z :=
  if (0 <=? z) && (z <? 2 ^ 32) then Some z else None.

(** [uint32_t volts_to_DAC(float volts, uint32_t resolution,
                           float min_volt, float max_volt)]. *)
Definition volts_to_DAC (volts : spec_float) (resolution : Z)
    (min_volt max_volt : spec_float) : option Z :=
  let volt_range := SFsub prec emax max_volt min_volt in
  let normalized_value :=
    SFdiv prec emax (SFsub prec emax volts min_volt) volt_range in
  c ← ceil (SFmul prec emax normalized_value
              (of_Z ((resolution - 1) mod 2 ^ 32)));
  to_uint32 c.

(** [float midi_note_to_volts(uint32_t midi_note)]. *)
Definition midi_note_to_volts (midi_note : Z) : spec_float :=
  SFmul prec emax (of_Z midi_note) volts_per_semitone.

(** The chain that [playSeq] applies to a table entry: semitone to volts
    to DAC code, for the range 0 V to 3.3 V. *)
Definition note_to_DAC (note : Z) : option Z :=
  volts_to_DAC (midi_note_to_volts note) RESOLUTION_12_BIT f0_0 f3_3.

End Codec.

(** ** The complete sketch: reset input, threshold tables, two arrays *)

Module Firmware.

(** The globals of the sketch.  [PA4] is the history of the values given
    to [analogWrite(PA4, _)], latest first. *)
Record state : Type := mkState {
  clockInput : bool;
  count : Z;
  countSize : Z;
  NoteMode : Z;
  mm : Z;
  raw_mm : Z;
  dacU : Z;
  sequence : list Z;
  sequenceLinear : list Z;
  NumberOfNotes : Z;
  fullScales : list (list Z);
  PA4 : list Z
}.

Definition set_clockInput (v : bool) (st : state) : state :=
  mkState v (count st) (countSize st) (NoteMode st) (mm st) (raw_mm st)
    (dacU st) (sequence st) (sequenceLinear st) (NumberOfNotes st)
    (fullScales st) (PA4 st).

Definition set_count (v : Z) (st : state) : state :=
  mkState (clockInput st) v (countSize st) (NoteMode st) (mm st) (raw_mm st)
    (dacU st) (sequence st) (sequenceLinear st) (NumberOfNotes st)
    (fullScales st) (PA4 st).

Definition set_countSize (v : Z) (st : state) : state :=
  mkState (clockInput st) (count st) v (NoteMode st) (mm st) (raw_mm st)
    (dacU st) (sequence st) (sequenceLinear st) (NumberOfNotes st)
    (fullScales st) (PA4 st).

Definition set_NoteMode (v : Z) (st : state) : state :=
  mkState (clockInput st) (count st) (countSize st) v (mm st) (raw_mm st)
    (dacU st) (sequence st) (sequenceLinear st) (NumberOfNotes st)
    (fullScales st) (PA4 st).

Definition set_mm (v : Z) (st : state) : state :=
  mkState (clockInput st) (count st) (countSize st) (NoteMode st) v (raw_mm st)
    (dacU st) (sequence st) (sequenceLinear st) (NumberOfNotes st)
    (fullScales st) (PA4 st).

Definition set_raw_mm (v : Z) (st : state) : state :=
  mkState (clockInput st) (count st) (countSize st) (NoteMode st) (mm st) v
    (dacU st) (sequence st) (sequenceLinear st) (NumberOfNotes st)
    (fullScales st) (PA4 st).

Definition set_dacU (v : Z) (st : state) : state :=
  mkState (clockInput st) (count st) (countSize st) (NoteMode st) (mm st)
    (raw_mm st) v (sequence st) (sequenceLinear st) (NumberOfNotes st)
    (fullScales st) (PA4 st).

Definition set_sequence (v : list Z) (st : state) : state :=
  mkState (clockInput st) (count st) (countSize st) (NoteMode st) (mm st)
    (raw_mm st) (dacU st) v (sequenceLinear st) (NumberOfNotes st)
    (fullScales st) (PA4 st).

Definition set_sequenceLinear (v : list Z) (st : state) : state :=
  mkState (clockInput st) (count st) (countSize st) (NoteMode st) (mm st)
    (raw_mm st) (dacU st) (sequence st) v (NumberOfNotes st)
    (fullScales st) (PA4 st).

Definition set_NumberOfNotes (v : Z) (st : state) : state :=
  mkState (clockInput st) (count st) (countSize st) (NoteMode st) (mm st)
    (raw_mm st) (dacU st) (sequence st) (sequenceLinear st) v
    (fullScales st) (PA4 st).

(** [analogWrite(PA4, v)]. *)
Definition analogWrite (v : Z) (st : state) : state :=
  mkState (clockInput st) (count st) (countSize st) (NoteMode st) (mm st)
    (raw_mm st) (dacU st) (sequence st) (sequenceLinear st) (NumberOfNotes st)
    (fullScales st) (v :: PA4 st).

(** [int TopRange = 700] and [float fix = 0.000], never assigned again. *)
Definition TopRange : Z := 700.
Definition fix_ : spec_float := Codec.f0_0.

(** [scaleMode()], with [scalemode = scaleKnob.getValue()]. *)
Definition scaleMode (scalemode : Z) (st : state) : state :=
  if scalemode <? 18 then
    set_NumberOfNotes 23 (set_NoteMode 0 st)
  else if (scalemode >? 18) && (scalemode <=? 53) then
    set_NumberOfNotes 23 (set_NoteMode 1 st)
  else if (scalemode >=? 54) && (scalemode <=? 105) then
    set_NumberOfNotes 19 (set_NoteMode 2 st)
  else if (scalemode >=? 106) && (scalemode <=? 180) then
    set_NumberOfNotes 23 (set_NoteMode 3 st)
  else if (scalemode >=? 181) && (scalemode <=? 227) then
    set_NumberOfNotes 29 (set_NoteMode 4 st)
  else if (scalemode >=? 228) && (scalemode <=? 535) then
    set_NumberOfNotes 20 (set_NoteMode 5 st)
  else if (scalemode >=? 536) && (scalemode <=? 799) then
    set_NumberOfNotes 35 (set_NoteMode 6 st)
  else if scalemode >=? 800 then
    set_NoteMode 7 st
  else st.

(** [loopLength()], with [seqLength = noteSeqPot.getValue()]. *)
Definition loopLength (seqLength : Z) (st : state) : state :=
  if seqLength <=? 9 then set_countSize 1 st
  else if (seqLength >=? 10) && (seqLength <=? 45) then set_countSize 2 st
  else if (seqLength >=? 46) && (seqLength <=? 120) then set_countSize 3 st
  else if (seqLength >=? 121) && (seqLength <=? 210) then set_countSize 7 st
  else if (seqLength >=? 211) && (seqLength <=? 360) then set_countSize 15 st
  else if (seqLength >=? 361) && (seqLength <=? 799) then set_countSize 31 st
  else if seqLength >=? 800 then set_countSize 63 st
  else st.

(** What one iteration of [loop()] observes of its collaborators:
    [knobScale] and [knobLength] are [Some v] when the knob reports
    [hasChanged()] with [getValue() = v]; [range] is [Some d] when
    [lox.isRangeComplete()] and [lox.readRange() = d]; [held] is
    [digitalRead(PB5) == LOW]. *)
Record inputs : Type := mkInputs {
  knobScale : option Z;
  knobLength : option Z;
  range : option Z;
  held : bool
}.

Definition ReadKnobs (i : inputs) (st : state) : state :=
  let st := match knobScale i with Some v => scaleMode v st | None => st end in
  match knobLength i with Some v => loopLength v st | None => st end.

Definition playSeq (st : state) : option state :=
  if negb (NoteMode st =? 7) then
    idx ← load (sequence st) (count st);
    row ← (if 0 <=? NoteMode st
           then fullScales st !! Z.to_nat (NoteMode st) else None);
    note ← load row idx;
    let volts := Codec.midi_note_to_volts note in
    d ← Codec.volts_to_DAC volts Codec.RESOLUTION_12_BIT Codec.f0_0
          (SFadd Codec.prec Codec.emax Codec.f3_3 fix_);
    Some (analogWrite d (set_dacU d st))
  else
    linear ← load (sequenceLinear st) (count st);
    Some (analogWrite linear st).

Definition recordSeq (st : state) : option state :=
  if (mm st >? TopRange) || (mm st <? 50) then
    let st := set_mm 0 st in
    s ← store (sequence st) (count st) (u8 (mm st));
    playSeq (set_sequence s st)
  else if negb (NoteMode st =? 7) then
    let st := set_mm (map_ (mm st) 50 TopRange 0 (NumberOfNotes st)) st in
    let st := set_mm (constrain (mm st) 0 (NumberOfNotes st)) st in
    s ← store (sequence st) (count st) (u8 (mm st));
    playSeq (set_sequence s st)
  else
    let st := set_raw_mm (map_ (mm st) 50 TopRange 0 4095) st in
    let st := set_raw_mm (constrain (raw_mm st) 0 4095) st in
    s ← store (sequenceLinear st) (count st) (u8 (raw_mm st));
    playSeq (set_sequenceLinear s st).

(** The two interrupt handlers. *)
Definition gate (st : state) : state := set_clockInput true st.

Definition reset (st : state) : state := set_count 0 st.

(** [readsensor()], with [d = lox.readRange()]. *)
Definition readsensor (d : Z) (st : state) : state := set_mm d st.

(** [incrementAndWrapCount(byte &count, byte maxSize)], as the new value
    of [count]. *)
Definition incrementAndWrapCount (count maxSize : Z) : Z :=
  let count := u8 (count + 1) in
  if count >? maxSize then 0 else count.

Definition loop (i : inputs) (st : state) : option state :=
  let st := ReadKnobs i st in
  let st := match range i with Some d => readsensor d st | None => st end in
  if clockInput st then
    let st := set_clockInput false st in
    st ← (if held i then recordSeq st else playSeq st);
    Some (set_count (incrementAndWrapCount (count st) (countSize st)) st)
  else Some st.

(** The globals as initialised, then [setup()].  [fs] stands for the
    content of [fullScales] left by [generateFullScales()], which the
    source does not determine for the last scale (see
    [Scales.generateFullScales]); [seqLength] and [scalemode] are the knob
    readings taken by the two calls that end [setup()]. *)
Definition initial (fs : list (list Z)) : state :=
  mkState false (u8 (-1)) 3 0 0 0 0 (replicate 64 0) (replicate 64 0) 0 fs [].

Definition setup (fs : list (list Z)) (seqLength scalemode : Z) : state :=
  scaleMode scalemode (loopLength seqLength (analogWrite 0 (initial fs))).

(** What happens between power-up and now: interrupts and loop
    iterations, in order.  An interrupt is taken between two iterations of
    [loop()]; one that arrives inside an iteration is not modelled. *)
Inductive event : Type :=
| Gate
| Reset
| Loop (i : inputs).

Definition step (e : event) (st : state) : option state :=
  match e with
  | Gate => Some (gate st)
  | Reset => Some (reset st)
  | Loop i => loop i st
  end.

Fixpoint run (evs : list event) (st : state) : option state :=
  match evs with
  | [] => Some st
  | e :: rest => st ← step e st; run rest st
  end.

(** Shape of the scale table: 7 rows of 37 bytes. *)
Definition table_ok (fs : list (list Z)) : Prop :=
  length fs = 7%nat /\ Forall (fun row : list Z => length row = 37%nat) fs.

(** What every reachable state satisfies. *)
Record inv (st : state) : Prop := mkInv {
  inv_sequence_length : length (sequence st) = 64%nat;
  inv_linear_length : length (sequenceLinear st) = 64%nat;
  inv_sequence : Forall (fun v => 0 <= v <= 35) (sequence st);
  inv_notes : 0 <= NumberOfNotes st <= 35;
  inv_mode : 0 <= NoteMode st <= 7
}.

(** The entries of the table are bytes. *)
Definition table_bytes (fs : list (list Z)) : Prop :=
  Forall (fun row : list Z => Forall (fun v => 0 <= v < 256) row) fs.

(** A table to run examples on: the rows that [generateFullScales]
    completes, and the zero-initialised row where it does not. *)
Definition sample_table : list (list Z) :=
  map (fun pat => match Scales.generateRow pat with
                  | Scales.Done row => row
                  | _ => replicate 37 0
                  end) Scales.scalePatterns.

(** A state in the middle of a 4-step Major loop: cursor on step 2, a
    clock edge pending, the hand at 400 mm. *)
Definition mid_loop : state :=
  mkState true 2 3 0 400 0 0 (replicate 64 0) (replicate 64 0) 23
    sample_table [0].

(** The part of [recordSeq] that precedes its call of [playSeq]: the
    assignments to [mm], [raw_mm] and one of the two arrays. *)
Definition stored (st : state) : option state :=
  if (mm st >? TopRange) || (mm st <? 50) then
    let st := set_mm 0 st in
    s ← store (sequence st) (count st) (u8 (mm st));
    Some (set_sequence s st)
  else if negb (NoteMode st =? 7) then
    let st := set_mm (map_ (mm st) 50 TopRange 0 (NumberOfNotes st)) st in
    let st := set_mm (constrain (mm st) 0 (NumberOfNotes st)) st in
    s ← store (sequence st) (count st) (u8 (mm st));
    Some (set_sequence s st)
  else
    let st := set_raw_mm (map_ (mm st) 50 TopRange 0 4095) st in
    let st := set_raw_mm (constrain (raw_mm st) 0 4095) st in
    s ← store (sequenceLinear st) (count st) (u8 (raw_mm st));
    Some (set_sequenceLinear s st).

(** A state from which no access leaves the arrays: the reachable-state
    facts, the cursor and the loop length inside the 64 steps, a table of
    7 rows of 37 bytes. *)
Record safe (st : state) : Prop := mkSafe {
  safe_inv : inv st;
  safe_count : 0 <= count st <= 63;
  safe_countSize : 0 <= countSize st <= 63;
  safe_table : table_ok (fullScales st);
  safe_bytes : table_bytes (fullScales st)
}.

End Firmware.

(** ** The earlier sketch (mudras.ino): one array, transition flag *)

Module Mudras.

(** [int scale[7][24]]. *)
Definition scale : list (list Z) :=
  [ [0; 2; 4; 5; 7; 9; 11; 12; 14; 16; 17; 19; 21; 23; 24; 26; 28; 29; 31;
     33; 35; 36; 36; 36];
    [0; 2; 4; 5; 7; 9; 10; 12; 14; 16; 17; 19; 21; 22; 24; 26; 28; 29; 31;
     33; 34; 36; 36; 36];
    [0; 0; 3; 3; 5; 5; 7; 7; 10; 10; 12; 12; 15; 15; 17; 17; 19; 19; 22;
     22; 24; 24; 27; 29];
    [0; 2; 3; 5; 7; 8; 11; 12; 14; 15; 17; 19; 20; 23; 24; 26; 27; 29; 31;
     32; 35; 36; 36; 36];
    [0; 2; 3; 5; 7; 8; 10; 12; 14; 15; 17; 19; 20; 22; 24; 26; 27; 29; 31;
     32; 34; 36; 36; 36];
    [0; 2; 4; 6; 8; 10; 12; 14; 16; 18; 20; 22; 24; 26; 28; 30; 32; 34; 36;
     38; 38; 38; 38; 38];
    [0; 1; 2; 3; 4; 5; 6; 7; 8; 9; 10; 11; 12; 13; 14; 15; 16; 17; 18; 19;
     20; 21; 22; 23] ].

(** The globals of the sketch; [poo] is the clock flag, [PA4] the history
    of the values given to [analogWrite(PA4, _)], latest first. *)
Record state : Type := mkState {
  poo : bool;
  raw_mm : Z;
  mm : Z;
  count : Z;
  countFlag : Z;
  NoteMode : Z;
  countSize : Z;
  dacUnit : Z;
  sequence : list Z;
  PA4 : list Z
}.

Definition set_poo (v : bool) (st : state) : state :=
  mkState v (raw_mm st) (mm st) (count st) (countFlag st) (NoteMode st)
    (countSize st) (dacUnit st) (sequence st) (PA4 st).

Definition set_raw_mm (v : Z) (st : state) : state :=
  mkState (poo st) v (mm st) (count st) (countFlag st) (NoteMode st)
    (countSize st) (dacUnit st) (sequence st) (PA4 st).

Definition set_mm (v : Z) (st : state) : state :=
  mkState (poo st) (raw_mm st) v (count st) (countFlag st) (NoteMode st)
    (countSize st) (dacUnit st) (sequence st) (PA4 st).

Definition set_count (v : Z) (st : state) : state :=
  mkState (poo st) (raw_mm st) (mm st) v (countFlag st) (NoteMode st)
    (countSize st) (dacUnit st) (sequence st) (PA4 st).

Definition set_countFlag (v : Z) (st : state) : state :=
  mkState (poo st) (raw_mm st) (mm st) (count st) v (NoteMode st)
    (countSize st) (dacUnit st) (sequence st) (PA4 st).

Definition set_NoteMode (v : Z) (st : state) : state :=
  mkState (poo st) (raw_mm st) (mm st) (count st) (countFlag st) v
    (countSize st) (dacUnit st) (sequence st) (PA4 st).

Definition set_countSize (v : Z) (st : state) : state :=
  mkState (poo st) (raw_mm st) (mm st) (count st) (countFlag st) (NoteMode st)
    v (dacUnit st) (sequence st) (PA4 st).

Definition set_dacUnit (v : Z) (st : state) : state :=
  mkState (poo st) (raw_mm st) (mm st) (count st) (countFlag st) (NoteMode st)
    (countSize st) v (sequence st) (PA4 st).

Definition set_sequence (v : list Z) (st : state) : state :=
  mkState (poo st) (raw_mm st) (mm st) (count st) (countFlag st) (NoteMode st)
    (countSize st) (dacUnit st) v (PA4 st).

Definition analogWrite (v : Z) (st : state) : state :=
  mkState (poo st) (raw_mm st) (mm st) (count st) (countFlag st) (NoteMode st)
    (countSize st) (dacUnit st) (sequence st) (v :: PA4 st).

Definition gate (st : state) : state := set_poo true st.

(** [readsensor()], with [d = lox.readRange()].  The two [constrain]
    statements compute a value and drop it. *)
Definition readsensor (d : Z) (st : state) : state :=
  let st := set_mm d st in
  let st := if mm st >? 675 then set_mm 0 st else st in
  let st := set_raw_mm (mm st) st in
  let st := set_raw_mm (map_ (mm st) 20 650 0 4095) st in
  let _ := constrain (raw_mm st) 0 4095 in
  let st := set_mm (map_ (mm st) 20 675 0 18) st in
  let _ := constrain (mm st) 0 18 in
  st.

Definition playSeq (st : state) : option state :=
  if NoteMode st =? 7 then
    v ← load (sequence st) (count st);
    let st := set_dacUnit v st in
    Some (analogWrite (dacUnit st) st)
  else
    idx ← load (sequence st) (count st);
    row ← (if 0 <=? NoteMode st
           then scale !! Z.to_nat (NoteMode st) else None);
    note ← load row idx;
    let volts := Codec.midi_note_to_volts (note mod 2 ^ 32) in
    d ← Codec.volts_to_DAC volts Codec.RESOLUTION_12_BIT Codec.f0_0 Codec.f3_3;
    let st := set_dacUnit d st in
    Some (analogWrite (dacUnit st) st).

Definition recordSeq (st : state) : option state :=
  if NoteMode st =? 7 then
    s ← store (sequence st) (count st) (raw_mm st);
    playSeq (set_sequence s st)
  else
    s ← store (sequence st) (count st) (mm st);
    playSeq (set_sequence s st).

Definition scaleMode (scalemode : Z) (st : state) : state :=
  set_NoteMode (map_ scalemode 0 1023 0 7) st.

Definition loopLength (seqLength : Z) (st : state) : state :=
  let range := map_ seqLength 0 1023 0 6 in
  if range =? 0 then set_countSize 1 st
  else if range =? 1 then set_countSize 2 st
  else if range =? 2 then set_countSize 3 st
  else if range =? 3 then set_countSize 7 st
  else if range =? 4 then set_countSize 15 st
  else if range =? 5 then set_countSize 31 st
  else if range =? 6 then set_countSize 63 st
  else st.

(** Observations of one iteration of [loop()], as in [Firmware.inputs];
    [held] is [digitalRead(D4) == LOW]. *)
Record inputs : Type := mkInputs {
  knobScale : option Z;
  knobLength : option Z;
  range : option Z;
  held : bool
}.

Definition knobs (i : inputs) (st : state) : state :=
  let st := match knobScale i with Some v => scaleMode v st | None => st end in
  match knobLength i with Some v => loopLength v st | None => st end.

Definition loop (i : inputs) (st : state) : option state :=
  let st := knobs i st in
  let st := match range i with Some d => readsensor d st | None => st end in
  if poo st then
    let st := set_poo false st in
    let st := set_count (count st + 1) st in
    let st := if count st >? countSize st then set_count 0 st else st in
    if held i then
      let st :=
        if countFlag st =? 1 then set_countFlag 0 (set_count 0 st) else st in
      recordSeq st
    else
      let st := set_countFlag 1 st in
      playSeq st
  else Some st.

Definition initial : state :=
  mkState false 0 0 (-1) 0 0 3 0 (replicate 64 0) [].

Definition setup (seqLength : Z) : state := loopLength seqLength initial.

(** What the clock-edge path relies on. *)
Record ready (st : state) : Prop := mkReady {
  ready_sequence : length (sequence st) = 64%nat;
  ready_mm : 0 <= mm st <= 18;
  ready_mode : 0 <= NoteMode st <= 7;
  ready_size : 0 <= countSize st <= 63
}.

Definition valid (i : inputs) : Prop :=
  (forall v, knobScale i = Some v -> 0 <= v <= 1023) /\
  (forall d, range i = Some d -> 0 <= d <= 65535).

(** A state in the middle of a 4-step loop in the first scale: cursor on
    step 2, a clock edge pending, the last edge played ([countFlag = 1]). *)
Definition mid_loop : state :=
  mkState true 0 0 2 1 0 3 0 (replicate 64 0) [0].

End Mudras.

(** * Properties *)

(** ** Machine integers and arrays *)

Lemma u8_range z : 0 <= u8 z < 256.
Proof. unfold u8. apply Z.mod_pos_bound. lia. Qed.

Lemma u8_small z : 0 <= z < 256 -> u8 z = z.
Proof. intros H. unfold u8. apply Z.mod_small. exact H. Qed.

Lemma constrain_range amt low high :
  low <= high -> low <= constrain amt low high <= high.
Proof.
  intros H. unfold constrain.
  destruct (Z.ltb_spec amt low); [lia|].
  destruct (amt >? high) eqn:E; [lia|].
  rewrite Z.gtb_ltb in E. apply Z.ltb_ge in E. lia.
Qed.

Lemma load_Some a i v : load a i = Some v -> 0 <= i < Z.of_nat (length a).
Proof.
  unfold load. destruct (Z.leb_spec 0 i); [|discriminate].
  intros E. apply lookup_lt_Some in E. lia.
Qed.

Lemma load_in_range a i :
  0 <= i < Z.of_nat (length a) -> exists v, load a i = Some v.
Proof.
  intros H. unfold load. destruct (Z.leb_spec 0 i); [|lia].
  destruct (lookup_lt_is_Some_2 a (Z.to_nat i)) as [v Hv]; [lia|].
  exists v. exact Hv.
Qed.

Lemma load_out_of_range a i : Z.of_nat (length a) <= i -> load a i = None.
Proof.
  intros H. unfold load. destruct (Z.leb_spec 0 i); [|reflexivity].
  apply lookup_ge_None. lia.
Qed.

Lemma store_Some a i v a' :
  store a i v = Some a' ->
  0 <= i < Z.of_nat (length a) /\ a' = <[Z.to_nat i := v]> a.
Proof.
  unfold store.
  destruct (Z.leb_spec 0 i); destruct (Z.ltb_spec i (Z.of_nat (length a)));
    simpl; intros E; inversion E; subst; split; (lia || reflexivity).
Qed.

Lemma store_in_range a i v :
  0 <= i < Z.of_nat (length a) -> store a i v = Some (<[Z.to_nat i := v]> a).
Proof.
  intros H. unfold store.
  destruct (Z.leb_spec 0 i); destruct (Z.ltb_spec i (Z.of_nat (length a)));
    simpl; (reflexivity || lia).
Qed.

Lemma store_out_of_range a i v : Z.of_nat (length a) <= i -> store a i v = None.
Proof.
  intros H. unfold store.
  destruct (Z.ltb_spec i (Z.of_nat (length a))); [lia|].
  rewrite andb_false_r. reflexivity.
Qed.

Lemma load_store_same a i v a' : store a i v = Some a' -> load a' i = Some v.
Proof.
  intros E. apply store_Some in E as [Hi ->]. unfold load.
  destruct (Z.leb_spec 0 i); [|lia].
  apply list_lookup_insert_eq. lia.
Qed.

Lemma load_store_other a i j v a' :
  store a i v = Some a' -> i <> j -> load a' j = load a j.
Proof.
  intros E Hne. apply store_Some in E as [Hi ->]. unfold load.
  destruct (Z.leb_spec 0 j); [|reflexivity].
  apply list_lookup_insert_ne. lia.
Qed.

Lemma store_length a i v a' : store a i v = Some a' -> length a' = length a.
Proof. intros E. apply store_Some in E as [_ ->]. apply length_insert. Qed.

(** [map] onto [0, out_max] stays there for an input inside its range. *)
Lemma map_range x in_min in_max out_max :
  in_min <= x <= in_max -> in_min < in_max -> 0 <= out_max ->
  0 <= map_ x in_min in_max 0 out_max <= out_max.
Proof.
  intros Hx Hlt Ho. unfold map_. rewrite Z.sub_0_r, Z.add_0_r.
  rewrite Z.quot_div_nonneg by nia.
  split.
  - apply Z.div_pos; nia.
  - apply Z.div_le_upper_bound; nia.
Qed.

Lemma map_at_in_min in_min in_max out_max :
  in_min < in_max -> map_ in_min in_min in_max 0 out_max = 0.
Proof.
  intros H. unfold map_. rewrite Z.sub_diag, Z.mul_0_l, Z.add_0_r.
  apply Z.quot_0_l. lia.
Qed.

(** ** Proof steps shared by the sketches *)

(** Splits the threshold chain of [scaleMode] and [loopLength]. *)
Ltac bands :=
  repeat match goal with
         | |- context [if ?b then _ else _] => destruct b
         end.

(** Settles a comparison that the hypotheses decide. *)
Ltac decide_test :=
  match goal with
  | |- context [?a >? ?b] => rewrite (Z.gtb_ltb a b)
  | |- context [?a >=? ?b] => rewrite (Z.geb_leb a b)
  | |- context [?a <? ?b] =>
    first [rewrite (proj2 (Z.ltb_lt a b)) by lia
          |rewrite (proj2 (Z.ltb_ge a b)) by lia]
  | |- context [?a <=? ?b] =>
    first [rewrite (proj2 (Z.leb_le a b)) by lia
          |rewrite (proj2 (Z.leb_gt a b)) by lia]
  end; cbn [andb orb negb].

(** ** Scale table generator *)

Section ScaleGenerator.
Import Scales.

(** The loop writes one entry per iteration, so 38 rounds of fuel always
    reach the loop exit. *)
Lemma fuel_suffices fuel pat row noteIndex patternIndex octave mult :
  0 <= noteIndex <= 37 -> 37 - noteIndex < Z.of_nat fuel ->
  fill fuel pat row noteIndex patternIndex octave mult <> OutOfFuel.
Proof.
  revert row noteIndex patternIndex octave mult.
  induction fuel as [|fuel IH]; intros row n p o m Hn Hfuel; [lia|].
  cbn [fill].
  destruct (Z.ltb_spec n 37); [|discriminate].
  destruct (load pat p) as [v|]; [|discriminate].
  destruct (v =? 255).
  - destruct (u8 (o + 1) >=? 4); [discriminate|].
    destruct (load pat 0); [|discriminate].
    apply IH; rewrite u8_small by lia; lia.
  - destruct (load pat p); [|discriminate].
    apply IH; rewrite u8_small by lia; lia.
Qed.

Lemma generateRow_fuel pat : generateRow pat <> OutOfFuel.
Proof.
  unfold generateRow.
  pose proof (fuel_suffices 38 pat (replicate 37 0) 0 0 0 0) as H.
  destruct (fill 38 pat (replicate 37 0) 0 0 0 0) as [[row n]| |];
    [discriminate|discriminate|].
  exfalso. apply H; [lia|simpl; lia|reflexivity].
Qed.

(** What holds of the six sentinel-terminated scales: the row has 37
    entries, starts with the pattern, and its entries are bytes up to 47. *)
Lemma sentinel_rows_shape :
  Forall (fun s =>
            exists pat row,
              scalePatterns !! Z.to_nat s = Some pat /\
              generateScale s = Done row /\
              length row = 37%nat /\
              take (patternLength pat) row = take (patternLength pat) pat /\
              Forall (fun v => 0 <= v <= 47) row)
         (seqZ 0 6).
Proof.
  repeat (apply Forall_cons; split;
          [eexists; eexists; split; [reflexivity|];
           split; [vm_compute; reflexivity|];
           split; [reflexivity|]; split; [reflexivity|];
           repeat constructor; lia|]).
  apply Forall_nil. exact I.
Qed.

(** C2 (code defect).  The row generated for Major (scale 0) has the 37
    declared entries, but the loop stops after the fourth octave rather
    than the third: entry 27 is 47, above the 36 that the padding uses as
    the ceiling, and the padding that follows (entry 28, value 36) is lower
    than the note before it, so the row is not non-decreasing. *)
Theorem C2_major_row_exceeds_36_then_drops :
  exists row,
    generateScale 0 = Done row /\
    length row = 37%nat /\
    row !! 27%nat = Some 47 /\
    row !! 28%nat = Some 36 /\
    ascending row = false.
Proof.
  eexists. split; [vm_compute; reflexivity|].
  repeat split.
Qed.

(** C8 (code defect).  The Chromatic row uses all 12 entries for notes and
    holds no sentinel; after the 12 notes the generator reads entry 12 of
    the row, outside the row and, this being the last row, outside the
    array. *)
Theorem C8_chromatic_row_has_no_sentinel :
  exists pat,
    scalePatterns !! 6%nat = Some pat /\
    length pat = 12%nat /\
    patternLength pat = 12%nat /\
    Forall (fun v => v <> 255) pat /\
    load pat 12 = None /\
    generateScale 6 = OutOfBounds /\
    generateFullScales = OutOfBounds.
Proof.
  eexists. split; [reflexivity|].
  repeat split; try reflexivity.
  repeat constructor; discriminate.
Qed.

End ScaleGenerator.

(** ** CV codec *)

Section CVCodec.
Import Codec.

(** [3.3f] is the correctly rounded quotient 33/10. *)
Lemma f3_3_is_rounded_3_3 : SFdiv prec emax (of_Z 33) (of_Z 10) = f3_3.
Proof. vm_compute. reflexivity. Qed.

(** At the ends of the range the code is 0 and 4095. *)
Lemma volts_to_DAC_ends :
  volts_to_DAC f0_0 RESOLUTION_12_BIT f0_0 f3_3 = Some 0 /\
  volts_to_DAC f3_3 RESOLUTION_12_BIT f0_0 f3_3 = Some 4095.
Proof. split; vm_compute; reflexivity. Qed.

(** Below [min_volt] the product is negative and its conversion to
    [uint32_t] is not defined by C. *)
Lemma volts_to_DAC_below_min :
  volts_to_DAC (of_Z (-1)) RESOLUTION_12_BIT f0_0 f3_3 = None.
Proof. vm_compute. reflexivity. Qed.

(** C6 (code defect).  [volts_to_DAC] applies no clamp.  For 40 semitones
    (3.33 V, which the generated Major row holds at index 23, the highest
    index the Major band records) the code is 4137, and for 4 V it is 4964:
    both above the 12-bit ceiling 4095. *)
Theorem C6_volts_to_DAC_exceeds_ceiling :
  volts_to_DAC (midi_note_to_volts 40) RESOLUTION_12_BIT f0_0 f3_3
    = Some 4137 /\
  volts_to_DAC (of_Z 4) RESOLUTION_12_BIT f0_0 f3_3 = Some 4964 /\
  RESOLUTION_12_BIT - 1 < 4137.
Proof. repeat split; vm_compute; reflexivity. Qed.

End CVCodec.

(** ** The complete sketch *)

Section CompleteSketch.
Import Firmware.

(** Reads a variable back through the assignments made before. *)
Ltac fields :=
  cbn [clockInput count countSize NoteMode mm raw_mm dacU sequence
       sequenceLinear NumberOfNotes fullScales PA4
       set_clockInput set_count set_countSize set_NoteMode set_mm set_raw_mm
       set_dacU set_sequence set_sequenceLinear set_NumberOfNotes analogWrite
       gate reset readsensor mbind option_bind] in *.

(** The knob handlers write the mode, the note count and the loop length,
    nothing else. *)
Lemma scaleMode_frame v st :
  clockInput (scaleMode v st) = clockInput st /\
  count (scaleMode v st) = count st /\
  countSize (scaleMode v st) = countSize st /\
  mm (scaleMode v st) = mm st /\
  sequence (scaleMode v st) = sequence st /\
  sequenceLinear (scaleMode v st) = sequenceLinear st /\
  fullScales (scaleMode v st) = fullScales st /\
  PA4 (scaleMode v st) = PA4 st.
Proof. unfold scaleMode. bands; repeat split. Qed.

Lemma loopLength_frame v st :
  clockInput (loopLength v st) = clockInput st /\
  count (loopLength v st) = count st /\
  NoteMode (loopLength v st) = NoteMode st /\
  NumberOfNotes (loopLength v st) = NumberOfNotes st /\
  mm (loopLength v st) = mm st /\
  sequence (loopLength v st) = sequence st /\
  sequenceLinear (loopLength v st) = sequenceLinear st /\
  fullScales (loopLength v st) = fullScales st /\
  PA4 (loopLength v st) = PA4 st.
Proof. unfold loopLength. bands; repeat split. Qed.

Lemma ReadKnobs_frame i st :
  clockInput (ReadKnobs i st) = clockInput st /\
  count (ReadKnobs i st) = count st /\
  mm (ReadKnobs i st) = mm st /\
  sequence (ReadKnobs i st) = sequence st /\
  sequenceLinear (ReadKnobs i st) = sequenceLinear st /\
  fullScales (ReadKnobs i st) = fullScales st /\
  PA4 (ReadKnobs i st) = PA4 st.
Proof.
  unfold ReadKnobs.
  destruct (knobLength i) as [l|], (knobScale i) as [s|];
    repeat match goal with
           | |- context [loopLength ?v ?s] =>
             let H := fresh in
             pose proof (loopLength_frame v s) as H;
             destruct H as (-> & -> & _ & _ & -> & -> & -> & -> & ->)
           | |- context [scaleMode ?v ?s] =>
             let H := fresh in
             pose proof (scaleMode_frame v s) as H;
             destruct H as (-> & -> & _ & -> & -> & -> & -> & ->)
           end; repeat split.
Qed.

(** The scale band table read as an ordered list of inclusive upper
    bounds: apart from the reading 18, the first band whose bound is not
    below the reading wins. *)
Lemma scaleMode_bands v st :
  v <> 18 ->
  NoteMode (scaleMode v st) =
    (if v <=? 17 then 0 else if v <=? 53 then 1 else if v <=? 105 then 2
     else if v <=? 180 then 3 else if v <=? 227 then 4
     else if v <=? 535 then 5 else if v <=? 799 then 6 else 7).
Proof.
  intros Hv. unfold scaleMode.
  assert (v <= 17 \/ 19 <= v <= 53 \/ 54 <= v <= 105 \/ 106 <= v <= 180 \/
          181 <= v <= 227 \/ 228 <= v <= 535 \/ 536 <= v <= 799 \/ 800 <= v)
    as C by lia.
  repeat destruct C as [C|C]; repeat decide_test; reflexivity.
Qed.

(** The length band table is total: every reading selects one of the
    seven lengths, the first band whose bound is not below it. *)
Lemma loopLength_bands v st :
  countSize (loopLength v st) =
    (if v <=? 9 then 1 else if v <=? 45 then 2 else if v <=? 120 then 3
     else if v <=? 210 then 7 else if v <=? 360 then 15
     else if v <=? 799 then 31 else 63).
Proof.
  unfold loopLength.
  assert (v <= 9 \/ 10 <= v <= 45 \/ 46 <= v <= 120 \/ 121 <= v <= 210 \/
          211 <= v <= 360 \/ 361 <= v <= 799 \/ 800 <= v) as C by lia.
  repeat destruct C as [C|C]; repeat decide_test; reflexivity.
Qed.

(** C7 (code defect).  The first two scale bands are [scalemode < 18] and
    [18 < scalemode <= 53]: the reading 18 lies in neither, so it selects
    no mode and the call changes nothing, while 17 selects Major and 19
    selects Minor. *)
Theorem C7_scale_reading_18_selects_nothing st :
  NoteMode (scaleMode 17 st) = 0 /\
  NoteMode (scaleMode 19 st) = 1 /\
  scaleMode 18 st = st.
Proof. repeat split. Qed.

(** Advancing the cursor from inside the loop walks 0, 1, ..., maxSize
    and wraps to 0. *)
Lemma incrementAndWrapCount_cycle c maxSize :
  0 <= c <= maxSize -> maxSize <= 255 ->
  incrementAndWrapCount c maxSize = (if c <? maxSize then c + 1 else 0) /\
  0 <= incrementAndWrapCount c maxSize <= maxSize.
Proof.
  intros Hc Hm. unfold incrementAndWrapCount.
  destruct (Z.ltb_spec c maxSize).
  - rewrite u8_small by lia.
    destruct (c + 1 >? maxSize) eqn:E; [|lia].
    rewrite Z.gtb_ltb in E. apply Z.ltb_lt in E. lia.
  - assert (c = maxSize) as -> by lia.
    destruct (Z.eq_dec maxSize 255) as [->|Hne]; [vm_compute; split; [reflexivity|split; discriminate]|].
    rewrite u8_small by lia.
    destruct (maxSize + 1 >? maxSize) eqn:E; [lia|].
    rewrite Z.gtb_ltb in E. apply Z.ltb_ge in E. lia.
Qed.

(** The power-up value of the cursor is the byte 255, which the first
    increment turns into 0. *)
Lemma incrementAndWrapCount_first maxSize :
  0 <= maxSize -> incrementAndWrapCount (u8 (-1)) maxSize = 0.
Proof.
  intros H. unfold incrementAndWrapCount. change (u8 (u8 (-1) + 1)) with 0.
  destruct (0 >? maxSize) eqn:E; [|reflexivity].
  rewrite Z.gtb_ltb in E. apply Z.ltb_lt in E. lia.
Qed.

(** A cursor beyond the arrays makes both paths of the clock edge access
    them out of bounds. *)
Lemma playSeq_cursor_outside st :
  length (sequence st) = 64%nat -> length (sequenceLinear st) = 64%nat ->
  64 <= count st -> playSeq st = None.
Proof.
  intros H1 H2 Hc. unfold playSeq.
  rewrite !load_out_of_range by lia.
  destruct (negb (NoteMode st =? 7)); reflexivity.
Qed.

Lemma recordSeq_cursor_outside st :
  length (sequence st) = 64%nat -> length (sequenceLinear st) = 64%nat ->
  64 <= count st -> recordSeq st = None.
Proof.
  intros H1 H2 Hc. unfold recordSeq.
  destruct ((mm st >? TopRange) || (mm st <? 50));
    [|destruct (negb (NoteMode st =? 7))];
    cbn [set_mm set_raw_mm sequence sequenceLinear count mm raw_mm];
    rewrite store_out_of_range by lia; reflexivity.
Qed.

(** C1 (code defect).  [count] is a byte initialised with -1, that is 255,
    and the clock edge plays or records at [count] before advancing it.
    Whatever the knobs, the sensor and the button, the first clock edge
    after [setup] therefore indexes the 64-entry arrays at 255. *)
Theorem C1_first_clock_edge_indexes_255 fs seqLength scalemode i :
  count (setup fs seqLength scalemode) = 255 /\
  length (sequence (setup fs seqLength scalemode)) = 64%nat /\
  length (sequenceLinear (setup fs seqLength scalemode)) = 64%nat /\
  loop i (gate (setup fs seqLength scalemode)) = None.
Proof.
  assert (count (setup fs seqLength scalemode) = 255 /\
          sequence (setup fs seqLength scalemode) = replicate 64 0 /\
          sequenceLinear (setup fs seqLength scalemode) = replicate 64 0)
    as (Hc & Hs & Hl).
  { unfold setup.
    destruct (scaleMode_frame scalemode
                (loopLength seqLength (analogWrite 0 (initial fs))))
      as (_ & -> & _ & _ & -> & -> & _).
    destruct (loopLength_frame seqLength (analogWrite 0 (initial fs)))
      as (_ & -> & _ & _ & _ & -> & -> & _).
    repeat split. }
  rewrite Hc, Hs, Hl. repeat split.
  unfold loop.
  set (st0 := gate (setup fs seqLength scalemode)).
  set (st1 := ReadKnobs i st0).
  set (st2 := match range i with Some d => readsensor d st1 | None => st1 end).
  assert (clockInput st2 = true /\ count st2 = 255 /\
          sequence st2 = replicate 64 0 /\
          sequenceLinear st2 = replicate 64 0) as (Hk & Hc2 & Hs2 & Hl2).
  { assert (clockInput st1 = true /\ count st1 = 255 /\
            sequence st1 = replicate 64 0 /\
            sequenceLinear st1 = replicate 64 0) as H1.
    { subst st1. destruct (ReadKnobs_frame i st0)
        as (-> & -> & _ & -> & -> & _).
      subst st0. simpl. auto. }
    subst st2. destruct (range i); simpl; exact H1. }
  rewrite Hk.
  destruct (held i).
  - rewrite recordSeq_cursor_outside; [reflexivity| | |];
      simpl; rewrite ?Hs2, ?Hl2, ?Hc2; (reflexivity || lia).
  - rewrite playSeq_cursor_outside; [reflexivity| | |];
      simpl; rewrite ?Hs2, ?Hl2, ?Hc2; (reflexivity || lia).
Qed.

(** In linear mode an in-range reading is mapped to 0..4095 and the byte
    array keeps its low 8 bits only; playback then emits that byte. *)
Lemma recordSeq_linear st :
  NoteMode st = 7 -> 50 <= mm st <= TopRange ->
  0 <= count st < 64 -> length (sequenceLinear st) = 64%nat ->
  exists st',
    recordSeq st = Some st' /\
    raw_mm st' = constrain (map_ (mm st) 50 TopRange 0 4095) 0 4095 /\
    load (sequenceLinear st') (count st) = Some (raw_mm st' mod 256) /\
    PA4 st' = raw_mm st' mod 256 :: PA4 st.
Proof.
  intros Hm Hmm Hc Hl. unfold recordSeq.
  replace ((mm st >? TopRange) || (mm st <? 50)) with false; cycle 1.
  { symmetry. apply orb_false_iff. split.
    - rewrite Z.gtb_ltb. apply Z.ltb_ge. lia.
    - apply Z.ltb_ge. lia. }
  rewrite Hm. cbn [Z.eqb Pos.eqb negb]. fields.
  rewrite store_in_range by lia. fields.
  unfold playSeq. fields.
  rewrite Hm. cbn [Z.eqb Pos.eqb negb].
  assert (load (<[Z.to_nat (count st) :=
                  u8 (constrain (map_ (mm st) 50 TopRange 0 4095) 0 4095)]>
                 (sequenceLinear st)) (count st)
          = Some (u8 (constrain (map_ (mm st) 50 TopRange 0 4095) 0 4095)))
    as E.
  { apply (load_store_same (sequenceLinear st)). apply store_in_range. lia. }
  rewrite E. fields.
  eexists. split; [reflexivity|]. cbn. rewrite E. repeat split.
Qed.

(** C3 (code defect).  Linear mode, loop of 32 steps.  At step 0 the
    sensor reads 700 mm with the button held: the mapped value is 4095,
    but [sequenceLinear] is an array of bytes and keeps 255.  The value
    heard while recording and the value played back from step 0
    afterwards are both 255, not 4095. *)
Theorem C3_linear_value_stored_as_byte fs :
  exists st,
    run [Reset; Gate; Loop (mkInputs None None (Some 700) true);
         Reset; Gate; Loop (mkInputs None None None false)]
        (setup fs 500 900) = Some st /\
    NoteMode st = 7 /\
    raw_mm st = 4095 /\
    load (sequenceLinear st) 0 = Some 255 /\
    PA4 st = [255; 255; 0].
Proof. eexists. split; [vm_compute; reflexivity|]. repeat split. Qed.

(** C10 (counterexample).  The reset handler writes the cursor: run on
    the power-up state it changes [count] from 255 to 0. *)
Lemma C10_reset_handler_writes_cursor :
  count (reset (initial sample_table)) <> count (initial sample_table).
Proof. discriminate. Qed.

(** C10 (amended).  The clock handler sets the flag [clockInput] and
    leaves every other variable as it was.  The reset handler has no flag:
    it sets the cursor [count] to 0 itself and leaves every other variable,
    the clock flag and both sequence arrays included, as it was. *)
Theorem C10_handlers_write_one_variable st :
  (clockInput (gate st) = true /\
   count (gate st) = count st /\
   countSize (gate st) = countSize st /\
   NoteMode (gate st) = NoteMode st /\
   NumberOfNotes (gate st) = NumberOfNotes st /\
   mm (gate st) = mm st /\
   raw_mm (gate st) = raw_mm st /\
   dacU (gate st) = dacU st /\
   sequence (gate st) = sequence st /\
   sequenceLinear (gate st) = sequenceLinear st /\
   fullScales (gate st) = fullScales st /\
   PA4 (gate st) = PA4 st) /\
  (count (reset st) = 0 /\
   clockInput (reset st) = clockInput st /\
   countSize (reset st) = countSize st /\
   NoteMode (reset st) = NoteMode st /\
   NumberOfNotes (reset st) = NumberOfNotes st /\
   mm (reset st) = mm st /\
   raw_mm (reset st) = raw_mm st /\
   dacU (reset st) = dacU st /\
   sequence (reset st) = sequence st /\
   sequenceLinear (reset st) = sequenceLinear st /\
   fullScales (reset st) = fullScales st /\
   PA4 (reset st) = PA4 st).
Proof. repeat split. Qed.

(** *** Reachable states *)

(** [playSeq] writes [dacU] and the output, nothing else. *)
Lemma playSeq_frame st st' :
  playSeq st = Some st' ->
  clockInput st' = clockInput st /\
  count st' = count st /\
  countSize st' = countSize st /\
  NoteMode st' = NoteMode st /\
  NumberOfNotes st' = NumberOfNotes st /\
  mm st' = mm st /\
  raw_mm st' = raw_mm st /\
  sequence st' = sequence st /\
  sequenceLinear st' = sequenceLinear st /\
  fullScales st' = fullScales st.
Proof.
  unfold playSeq. intros E.
  destruct (negb (NoteMode st =? 7)).
  - destruct (load (sequence st) (count st)) as [idx|]; [|discriminate].
    fields.
    destruct (if 0 <=? NoteMode st
              then fullScales st !! Z.to_nat (NoteMode st) else None)
      as [row|]; [|discriminate].
    fields.
    destruct (load row idx) as [note|]; [|discriminate].
    fields.
    destruct (Codec.volts_to_DAC _ _ _ _) as [d|]; [|discriminate].
    inversion E; subst. repeat split.
  - destruct (load (sequenceLinear st) (count st)) as [v|]; [|discriminate].
    inversion E; subst. repeat split.
Qed.

Lemma inv_frame st st' :
  sequence st' = sequence st ->
  sequenceLinear st' = sequenceLinear st ->
  NumberOfNotes st' = NumberOfNotes st ->
  NoteMode st' = NoteMode st ->
  inv st -> inv st'.
Proof.
  intros E1 E2 E3 E4 [H1 H2 H3 H4 H5].
  constructor; rewrite ?E1, ?E2, ?E3, ?E4; assumption.
Qed.

Lemma inv_setup fs seqLength scalemode : inv (setup fs seqLength scalemode).
Proof.
  unfold setup, scaleMode, loopLength.
  bands; (constructor; simpl;
          [reflexivity | reflexivity | repeat constructor; lia | lia | lia]).
Qed.

Lemma inv_scaleMode v st : inv st -> inv (scaleMode v st).
Proof.
  intros [H1 H2 H3 H4 H5]. unfold scaleMode.
  bands; (constructor; simpl; (assumption || lia)).
Qed.

Lemma inv_loopLength v st : inv st -> inv (loopLength v st).
Proof.
  destruct (loopLength_frame v st) as (_ & _ & E4 & E3 & _ & E1 & E2 & _).
  apply inv_frame; assumption.
Qed.

Lemma inv_ReadKnobs i st : inv st -> inv (ReadKnobs i st).
Proof.
  intros H. unfold ReadKnobs.
  destruct (knobScale i), (knobLength i);
    auto using inv_scaleMode, inv_loopLength.
Qed.

(** Every note index that [recordSeq] stores in scale mode lies between 0
    and [NumberOfNotes]. *)
Lemma recordSeq_scale_stores_clamped st st' :
  recordSeq st = Some st' -> NoteMode st <> 7 ->
  0 <= NumberOfNotes st <= 35 ->
  exists v,
    0 <= v <= NumberOfNotes st /\
    0 <= count st < Z.of_nat (length (sequence st)) /\
    sequence st' = <[Z.to_nat (count st) := v]> (sequence st) /\
    sequenceLinear st' = sequenceLinear st /\
    NumberOfNotes st' = NumberOfNotes st /\
    NoteMode st' = NoteMode st /\
    count st' = count st /\
    countSize st' = countSize st /\
    fullScales st' = fullScales st.
Proof.
  intros E Hm Hn. unfold recordSeq in E.
  assert ((NoteMode st =? 7) = false) as Hm' by (apply Z.eqb_neq; exact Hm).
  destruct ((mm st >? TopRange) || (mm st <? 50)).
  - fields.
    destruct (store (sequence st) (count st) (u8 0)) as [s|] eqn:Es;
      [|discriminate].
    fields.
    apply playSeq_frame in E as (_ & E2 & E3 & E4 & E5 & _ & _ & E8 & E9 & E10).
    apply store_Some in Es as [Hc ->].
    exists 0. repeat split; (lia || assumption).
  - rewrite Hm' in E. cbn [negb] in E.
    fields.
    set (v := constrain (map_ (mm st) 50 TopRange 0 (NumberOfNotes st)) 0
                (NumberOfNotes st)) in E.
    assert (0 <= v <= NumberOfNotes st) as Hv
      by (apply constrain_range; lia).
    destruct (store (sequence st) (count st) (u8 v)) as [s|] eqn:Es;
      [|discriminate].
    fields.
    apply playSeq_frame in E as (_ & E2 & E3 & E4 & E5 & _ & _ & E8 & E9 & E10).
    apply store_Some in Es as [Hc ->].
    rewrite u8_small in E8 by lia.
    exists v. repeat split; (lia || assumption).
Qed.

Lemma recordSeq_inv st st' :
  recordSeq st = Some st' -> inv st ->
  inv st' /\ fullScales st' = fullScales st /\
  count st' = count st /\ countSize st' = countSize st.
Proof.
  intros E Hinv.
  destruct (Z.eq_dec (NoteMode st) 7) as [Hm|Hm].
  - unfold recordSeq in E. rewrite Hm in E. cbn [Z.eqb Pos.eqb negb] in E.
    destruct Hinv as [H1 H2 H3 H4 H5].
    destruct ((mm st >? TopRange) || (mm st <? 50)).
    + fields.
      destruct (store (sequence st) (count st) (u8 0)) as [s|] eqn:Es;
        [|discriminate].
      fields.
      apply playSeq_frame in E
        as (_ & E2 & E3 & E4 & E5 & _ & _ & E8 & E9 & E10).
      apply store_Some in Es as [Hc ->]. fields.
      split; [|auto].
      constructor; rewrite ?E8, ?E9, ?E5, ?E4; try assumption.
      * rewrite length_insert. assumption.
      * apply Forall_insert; [assumption|]. change (u8 0) with 0. lia.
    + fields.
      destruct (store (sequenceLinear st) (count st) _) as [s|] eqn:Es;
        [|discriminate].
      fields.
      apply playSeq_frame in E
        as (_ & E2 & E3 & E4 & E5 & _ & _ & E8 & E9 & E10).
      apply store_length in Es. fields.
      split; [|auto].
      constructor; rewrite ?E8, ?E9, ?E5, ?E4; try assumption.
      congruence.
  - destruct (recordSeq_scale_stores_clamped st st' E Hm (inv_notes _ Hinv))
      as (v & Hv & Hc & E1 & E2 & E3 & E4 & E5 & E6 & E7).
    destruct Hinv as [H1 H2 H3 H4 H5].
    split; [|auto].
    constructor; rewrite ?E1, ?E2, ?E3, ?E4; try assumption.
    + rewrite length_insert. assumption.
    + apply Forall_insert; [assumption|]. lia.
Qed.

Lemma loop_inv i st st' :
  loop i st = Some st' -> inv st ->
  inv st' /\ fullScales st' = fullScales st.
Proof.
  unfold loop. intros E Hinv.
  set (st1 := ReadKnobs i st) in E.
  set (st2 := match range i with Some d => readsensor d st1 | None => st1 end)
    in E.
  assert (inv st2 /\ fullScales st2 = fullScales st) as [Hinv2 Hfs2].
  { assert (inv st1 /\ fullScales st1 = fullScales st) as [Ha Hb].
    { split; [apply inv_ReadKnobs; assumption|].
      subst st1. apply ReadKnobs_frame. }
    subst st2. destruct (range i); [|auto].
    split; [|exact Hb]. revert Ha. apply inv_frame; reflexivity. }
  clearbody st2. clear st1.
  destruct (clockInput st2); [|inversion E; subst; auto].
  assert (inv (set_clockInput false st2)) as Hinv3
    by (revert Hinv2; apply inv_frame; reflexivity).
  destruct (held i).
  - destruct (recordSeq (set_clockInput false st2)) as [st3|] eqn:E3;
      [|discriminate].
    fields. inversion E; subst.
    apply recordSeq_inv in E3 as (Ha & Hb & _); [|assumption].
    split; [revert Ha; apply inv_frame; reflexivity|].
    cbn. rewrite Hb. exact Hfs2.
  - destruct (playSeq (set_clockInput false st2)) as [st3|] eqn:E3;
      [|discriminate].
    fields. inversion E; subst.
    apply playSeq_frame in E3
      as (_ & _ & _ & E4 & E5 & _ & _ & E8 & E9 & E10).
    split.
    + apply (inv_frame (set_clockInput false st2)); cbn; assumption.
    + cbn. rewrite E10. exact Hfs2.
Qed.

Lemma run_inv evs st st' :
  run evs st = Some st' -> inv st ->
  inv st' /\ fullScales st' = fullScales st.
Proof.
  revert st. induction evs as [|e evs IH]; intros st E Hinv.
  - inversion E; subst. auto.
  - cbn [run] in E.
    destruct (step e st) as [st1|] eqn:Es; [|discriminate].
    fields.
    assert (inv st1 /\ fullScales st1 = fullScales st) as [Ha Hb].
    { destruct e; cbn [step] in Es.
      - inversion Es; subst. split; [|reflexivity].
        revert Hinv. apply inv_frame; reflexivity.
      - inversion Es; subst. split; [|reflexivity].
        revert Hinv. apply inv_frame; reflexivity.
      - apply loop_inv in Es; assumption. }
    destruct (IH st1 E Ha) as [Hc Hd]. split; [assumption|congruence].
Qed.

(** *** A clock edge handled inside the arrays *)

(** Every byte taken as a note converts to a DAC code. *)
Lemma note_to_code_total note :
  0 <= note < 256 ->
  exists d,
    Codec.volts_to_DAC (Codec.midi_note_to_volts note)
      Codec.RESOLUTION_12_BIT Codec.f0_0
      (SFadd Codec.prec Codec.emax Codec.f3_3 fix_) = Some d.
Proof.
  intros Hn.
  assert (forallb
            (fun n =>
               match Codec.volts_to_DAC (Codec.midi_note_to_volts n)
                       Codec.RESOLUTION_12_BIT Codec.f0_0
                       (SFadd Codec.prec Codec.emax Codec.f3_3 fix_) with
               | Some _ => true
               | None => false
               end) (seqZ 0 256) = true) as H
    by (vm_compute; reflexivity).
  rewrite forallb_forall in H. specialize (H note).
  destruct (Codec.volts_to_DAC _ _ _ _) as [d|].
  - exists d. reflexivity.
  - assert (false = true) as F; [|discriminate F].
    apply H. apply list_elem_of_In, elem_of_seqZ. lia.
Qed.

Lemma recordSeq_stored st : recordSeq st = stored st ≫= playSeq.
Proof.
  unfold recordSeq, stored.
  destruct ((mm st >? TopRange) || (mm st <? 50));
    [|destruct (negb (NoteMode st =? 7))];
    match goal with
    | |- context [store ?a ?i ?v] => destruct (store a i v)
    end; reflexivity.
Qed.

(** With the cursor inside the array the store is performed, at the
    cursor and nowhere else, and a stored note index is at most
    [NumberOfNotes]. *)
Lemma stored_at_cursor st :
  inv st -> 0 <= count st <= 63 ->
  exists st',
    stored st = Some st' /\ inv st' /\
    count st' = count st /\ countSize st' = countSize st /\
    NoteMode st' = NoteMode st /\ fullScales st' = fullScales st /\
    PA4 st' = PA4 st /\ clockInput st' = clockInput st /\
    (forall j, j <> count st ->
       load (sequence st') j = load (sequence st) j /\
       load (sequenceLinear st') j = load (sequenceLinear st) j).
Proof.
  intros [H1 H2 H3 H4 H5] Hc. unfold stored.
  destruct ((mm st >? TopRange) || (mm st <? 50));
    [|destruct (negb (NoteMode st =? 7))]; fields.
  - rewrite store_in_range by lia. fields.
    eexists. split; [reflexivity|]. fields.
    split; [constructor; fields; try assumption|].
    + rewrite length_insert. assumption.
    + apply Forall_insert; [assumption|]. change (u8 0) with 0. lia.
    + repeat split; try reflexivity.
      apply (load_store_other (sequence st) (count st) j (u8 0)); [|auto].
      apply store_in_range. lia.
  - set (v := constrain (map_ (mm st) 50 TopRange 0 (NumberOfNotes st)) 0
                (NumberOfNotes st)).
    assert (0 <= v <= NumberOfNotes st) as Hv by (apply constrain_range; lia).
    rewrite store_in_range by lia. fields.
    eexists. split; [reflexivity|]. fields.
    split; [constructor; fields; try assumption|].
    + rewrite length_insert. assumption.
    + apply Forall_insert; [assumption|]. rewrite u8_small by lia. lia.
    + repeat split; try reflexivity.
      apply (load_store_other (sequence st) (count st) j (u8 v)); [|auto].
      apply store_in_range. lia.
  - rewrite store_in_range by lia. fields.
    eexists. split; [reflexivity|]. fields.
    split; [constructor; fields; try assumption|].
    + rewrite length_insert. assumption.
    + repeat split; try reflexivity.
      eapply (load_store_other (sequenceLinear st) (count st) j); [|auto].
      apply store_in_range. lia.
Qed.

(** With the cursor inside the arrays and a table of bytes, [playSeq]
    performs its lookups and writes the output. *)
Lemma playSeq_succeeds st :
  inv st -> 0 <= count st <= 63 ->
  table_ok (fullScales st) -> table_bytes (fullScales st) ->
  exists st', playSeq st = Some st'.
Proof.
  intros [H1 H2 H3 H4 H5] Hc [Hrows Hcols] Hbytes. unfold playSeq.
  destruct (Z.eqb_spec (NoteMode st) 7) as [Hm|Hm]; cbn [negb].
  - destruct (load_in_range (sequenceLinear st) (count st)) as [v ->]; [lia|].
    eexists. reflexivity.
  - destruct (load_in_range (sequence st) (count st)) as [idx Hidx]; [lia|].
    assert (0 <= idx <= 35) as Hi.
    { unfold load in Hidx. destruct (0 <=? count st); [|discriminate].
      exact (proj1 (Forall_lookup _ _) H3 _ _ Hidx). }
    rewrite Hidx. fields.
    destruct (Z.leb_spec 0 (NoteMode st)); [|lia].
    destruct (lookup_lt_is_Some_2 (fullScales st) (Z.to_nat (NoteMode st)))
      as [row Hrow]; [lia|].
    rewrite Hrow. fields.
    assert (length row = 37%nat) as Hlen
      by exact (proj1 (Forall_lookup _ _) Hcols _ _ Hrow).
    destruct (load_in_range row idx) as [note Hnote]; [lia|].
    rewrite Hnote. fields.
    assert (0 <= note < 256) as Hb.
    { pose proof (proj1 (Forall_lookup _ _) Hbytes _ _ Hrow) as Hr.
      unfold load in Hnote. destruct (0 <=? idx); [|discriminate].
      exact (proj1 (Forall_lookup _ _) Hr _ _ Hnote). }
    destruct (note_to_code_total note Hb) as [d ->]. fields.
    eexists. reflexivity.
Qed.

(** A clock edge taken with the cursor inside the arrays: the step is
    played or recorded at the cursor, which then advances by one and
    wraps beyond [countSize]. *)
Lemma loop_clock_edge i st :
  inv st -> clockInput st = true -> 0 <= count st <= 63 ->
  table_ok (fullScales st) -> table_bytes (fullScales st) ->
  exists st',
    loop i st = Some st' /\ inv st' /\
    fullScales st' = fullScales st /\
    clockInput st' = false /\
    count st' = incrementAndWrapCount (count st) (countSize st') /\
    (forall j, j <> count st ->
       load (sequence st') j = load (sequence st) j /\
       load (sequenceLinear st') j = load (sequenceLinear st) j).
Proof.
  intros Hinv Hk Hc Hok Hbytes. unfold loop.
  set (st1 := ReadKnobs i st).
  set (st2 := match range i with Some d => readsensor d st1 | None => st1 end).
  assert (inv st2 /\ clockInput st2 = true /\ count st2 = count st /\
          sequence st2 = sequence st /\
          sequenceLinear st2 = sequenceLinear st /\
          fullScales st2 = fullScales st)
    as (Hinv2 & Hk2 & Hc2 & Hs2 & Hl2 & Hf2).
  { assert (inv st1 /\ clockInput st1 = true /\ count st1 = count st /\
            sequence st1 = sequence st /\
            sequenceLinear st1 = sequenceLinear st /\
            fullScales st1 = fullScales st) as (A1 & A2 & A3 & A4 & A5 & A6).
    { split; [apply inv_ReadKnobs; assumption|].
      subst st1.
      destruct (ReadKnobs_frame i st) as (-> & -> & _ & -> & -> & -> & _).
      auto. }
    subst st2. destruct (range i); [|auto 10].
    split; [revert A1; apply inv_frame; reflexivity|]. fields. auto 10. }
  clearbody st2. clear st1. rewrite Hk2.
  assert (inv (set_clockInput false st2)) as Hinv3
    by (revert Hinv2; apply inv_frame; reflexivity).
  destruct (held i).
  - rewrite recordSeq_stored.
    destruct (stored_at_cursor _ Hinv3)
      as (st4 & -> & Hinv4 & E1 & E2 & E3 & E4 & E5 & E5' & E6);
      [fields; lia|].
    fields.
    destruct (playSeq_succeeds st4 Hinv4) as [st5 E];
      [lia | rewrite E4, Hf2; assumption | rewrite E4, Hf2; assumption|].
    rewrite E. fields.
    apply playSeq_frame in E
      as (F1 & F2 & F3 & F4 & F5 & _ & _ & F8 & F9 & F10).
    eexists. split; [reflexivity|]. fields.
    split; [apply (inv_frame st4); assumption|].
    split; [congruence|]. split; [congruence|]. split; [congruence|].
    intros j Hj. rewrite F8, F9.
    destruct (E6 j) as [G1 G2]; [lia|].
    rewrite G1, G2, Hs2, Hl2. auto.
  - destruct (playSeq_succeeds _ Hinv3) as [st5 E];
      [fields; lia | fields; rewrite Hf2; assumption
      | fields; rewrite Hf2; assumption|].
    rewrite E. fields.
    apply playSeq_frame in E
      as (F1 & F2 & F3 & F4 & F5 & _ & _ & F8 & F9 & F10).
    fields.
    eexists. split; [reflexivity|]. fields.
    split; [apply (inv_frame (set_clockInput false st2)); assumption|].
    split; [congruence|]. split; [congruence|]. split; [congruence|].
    intros j Hj. rewrite F8, F9, Hs2, Hl2. auto.
Qed.

(** *** Readings beyond the top of the range *)

(** In a scale mode a reading above [TopRange] is handled exactly as the
    reading 50, the nearest valid distance: same stores, same output. *)
Lemma recordSeq_beyond_TopRange st d :
  NoteMode st <> 7 -> 0 <= NumberOfNotes st -> TopRange < d ->
  recordSeq (readsensor d st) = recordSeq (readsensor 50 st).
Proof.
  intros Hm Hn Hd. unfold recordSeq. fields.
  replace ((d >? TopRange) || (d <? 50)) with true; cycle 1.
  { symmetry. apply orb_true_iff. left. rewrite Z.gtb_ltb.
    apply Z.ltb_lt. exact Hd. }
  cbn [orb Z.gtb Z.ltb Z.compare Pos.compare Pos.compare_cont].
  replace (negb (NoteMode st =? 7)) with true; cycle 1.
  { symmetry. apply negb_true_iff, Z.eqb_neq. exact Hm. }
  rewrite map_at_in_min by reflexivity.
  replace (constrain 0 0 (NumberOfNotes st)) with 0; cycle 1.
  { unfold constrain. cbn [Z.ltb Z.compare].
    destruct (0 >? NumberOfNotes st) eqn:E; [|reflexivity].
    rewrite Z.gtb_ltb in E. apply Z.ltb_lt in E. lia. }
  reflexivity.
Qed.

(** A reading above [TopRange] stores the index 0 at the cursor. *)
Lemma recordSeq_beyond_TopRange_stores_0 st d :
  inv st -> 0 <= count st <= 63 ->
  table_ok (fullScales st) -> table_bytes (fullScales st) ->
  TopRange < d ->
  exists st',
    recordSeq (readsensor d st) = Some st' /\
    load (sequence st') (count st) = Some 0.
Proof.
  intros Hinv Hc Hok Hbytes Hd.
  pose proof Hinv as [H1 H2 H3 H4 H5].
  rewrite recordSeq_stored. unfold stored. fields.
  replace ((d >? TopRange) || (d <? 50)) with true; cycle 1.
  { symmetry. apply orb_true_iff. left. rewrite Z.gtb_ltb.
    apply Z.ltb_lt. exact Hd. }
  rewrite store_in_range by lia. fields.
  match goal with
  | |- context [playSeq ?s] =>
    destruct (playSeq_succeeds s) as [st' E]
  end; fields; try assumption.
  { constructor; fields; try assumption.
    - rewrite length_insert. assumption.
    - apply Forall_insert; [assumption|]. change (u8 0) with 0. lia. }
  exists st'. split; [exact E|].
  apply playSeq_frame in E as (_ & _ & _ & _ & _ & _ & _ & -> & _).
  fields. unfold load. destruct (Z.leb_spec 0 (count st)); [|lia].
  apply list_lookup_insert_eq. lia.
Qed.

(** In linear mode the same reading writes the 0 into [sequence], the
    array of the scale modes, and leaves [sequenceLinear] as it was: the
    value then played is the one the step held before. *)
Lemma recordSeq_beyond_TopRange_linear st d old :
  NoteMode st = 7 -> TopRange < d -> 0 <= count st <= 63 ->
  length (sequence st) = 64%nat ->
  load (sequenceLinear st) (count st) = Some old ->
  exists st',
    recordSeq (readsensor d st) = Some st' /\
    sequenceLinear st' = sequenceLinear st /\
    PA4 st' = old :: PA4 st.
Proof.
  intros Hm Hd Hc Hl Hold. unfold recordSeq. fields.
  replace ((d >? TopRange) || (d <? 50)) with true; cycle 1.
  { symmetry. apply orb_true_iff. left. rewrite Z.gtb_ltb.
    apply Z.ltb_lt. exact Hd. }
  rewrite store_in_range by lia. fields.
  unfold playSeq. fields. rewrite Hm. cbn [Z.eqb Pos.eqb negb].
  rewrite Hold. fields. eexists. repeat split.
Qed.

(** C5 (counterexample).  Major scale, step 0, button held.  The sensor
    reads 700 mm, above 675 mm: the index recorded is 23, the top of the
    Major band, and the code written to the DAC is 4137, while the
    reading 50 mm, the nearest valid distance, records the index 0 and
    writes the code 0. *)
Lemma C5_reading_700_records_top_index :
  exists st700 st50,
    run [Reset; Gate; Loop (mkInputs None None (Some 700) true)]
        (setup sample_table 100 0) = Some st700 /\
    run [Reset; Gate; Loop (mkInputs None None (Some 50) true)]
        (setup sample_table 100 0) = Some st50 /\
    load (sequence st700) 0 = Some 23 /\
    load (sequence st50) 0 = Some 0 /\
    PA4 st700 = [4137; 0] /\
    PA4 st50 = [0; 0].
Proof.
  eexists. eexists.
  split; [vm_compute; reflexivity|].
  split; [vm_compute; reflexivity|].
  repeat split.
Qed.

(** C4 (counterexample).  Major scale, loop of 4 steps.  Steps 0 and 1
    are played with the button released; on the third clock edge the
    button is held with the hand at 400 mm.  The note index 12 is recorded
    at step 2, the current position; step 0 keeps its content and the
    cursor moves on to 3. *)
Lemma C4_record_continues_from_current_step :
  exists st,
    run [Reset;
         Gate; Loop (mkInputs None None None false);
         Gate; Loop (mkInputs None None None false);
         Gate; Loop (mkInputs None None (Some 400) true)]
        (setup sample_table 100 0) = Some st /\
    load (sequence st) 2 = Some 12 /\
    load (sequence st) 0 = Some 0 /\
    count st = 3.
Proof. eexists. split; [vm_compute; reflexivity|]. repeat split. Qed.

End CompleteSketch.

(** ** The earlier sketch *)

Section EarlierSketch.
Import Mudras.

Ltac fields :=
  cbn [poo raw_mm mm count countFlag NoteMode countSize dacUnit sequence PA4
       set_poo set_raw_mm set_mm set_count set_countFlag set_NoteMode
       set_countSize set_dacUnit set_sequence analogWrite gate
       mbind option_bind] in *.

(** The sensor handler writes [mm] and [raw_mm] only; the index it leaves
    in [mm] lies in 0..18. *)
Lemma mudras_readsensor_frame d st :
  poo (readsensor d st) = poo st /\
  count (readsensor d st) = count st /\
  countFlag (readsensor d st) = countFlag st /\
  NoteMode (readsensor d st) = NoteMode st /\
  countSize (readsensor d st) = countSize st /\
  sequence (readsensor d st) = sequence st /\
  PA4 (readsensor d st) = PA4 st.
Proof. unfold readsensor. fields. destruct (d >? 675); repeat split. Qed.

Lemma mudras_readsensor_mm_range d st :
  0 <= d -> 0 <= mm (readsensor d st) <= 18.
Proof.
  intros Hd. unfold readsensor. fields.
  destruct (d >? 675) eqn:E; fields.
  - vm_compute. split; discriminate.
  - rewrite Z.gtb_ltb in E. apply Z.ltb_ge in E.
    unfold map_. rewrite Z.add_0_r, Z.sub_0_r.
    change (675 - 20) with 655.
    destruct (Z.le_gt_cases 20 d) as [Hge|Hlt].
    + rewrite Z.quot_div_nonneg by lia.
      split; [apply Z.div_pos; lia|apply Z.div_le_upper_bound; lia].
    + replace ((d - 20) * 18) with (- ((20 - d) * 18)) by lia.
      rewrite Z.quot_opp_l by lia.
      rewrite Z.quot_small by lia. lia.
Qed.

Lemma mudras_scaleMode_range v st :
  0 <= v <= 1023 -> 0 <= NoteMode (scaleMode v st) <= 7.
Proof.
  intros Hv. unfold scaleMode. fields.
  unfold map_. rewrite Z.add_0_r, !Z.sub_0_r.
  rewrite Z.quot_div_nonneg by lia.
  split; [apply Z.div_pos; lia|apply Z.div_le_upper_bound; lia].
Qed.

Lemma mudras_loopLength_frame v st :
  poo (loopLength v st) = poo st /\
  mm (loopLength v st) = mm st /\
  raw_mm (loopLength v st) = raw_mm st /\
  count (loopLength v st) = count st /\
  countFlag (loopLength v st) = countFlag st /\
  NoteMode (loopLength v st) = NoteMode st /\
  sequence (loopLength v st) = sequence st /\
  PA4 (loopLength v st) = PA4 st.
Proof. unfold loopLength. bands; repeat split. Qed.

Lemma mudras_loopLength_range v st :
  0 <= countSize st <= 63 -> 0 <= countSize (loopLength v st) <= 63.
Proof. intros H. unfold loopLength. bands; fields; lia. Qed.

Lemma mudras_ready_knobs i st : valid i -> ready st -> ready (knobs i st).
Proof.
  intros [Hk _] [H1 H2 H3 H4]. unfold knobs.
  assert (ready (match knobScale i with
                 | Some v => scaleMode v st
                 | None => st
                 end)) as [G1 G2 G3 G4].
  { destruct (knobScale i) as [v|]; [|constructor; assumption].
    constructor; try assumption.
    apply mudras_scaleMode_range, Hk. reflexivity. }
  destruct (knobLength i) as [l|]; [|constructor; assumption].
  match goal with
  | |- ready (loopLength l ?s) =>
    destruct (mudras_loopLength_frame l s) as (_ & E2 & _ & _ & _ & E6 & E7 & _);
    constructor; rewrite ?E2, ?E6, ?E7; try assumption
  end.
  apply mudras_loopLength_range. assumption.
Qed.

Lemma mudras_knobs_frame i st :
  poo (knobs i st) = poo st /\
  count (knobs i st) = count st /\
  countFlag (knobs i st) = countFlag st /\
  sequence (knobs i st) = sequence st /\
  PA4 (knobs i st) = PA4 st.
Proof.
  unfold knobs.
  destruct (knobLength i) as [l|];
    [match goal with
     | |- context [loopLength l ?s] =>
       destruct (mudras_loopLength_frame l s) as (-> & _ & _ & -> & -> & _ & -> & ->)
     end|];
    destruct (knobScale i); repeat split.
Qed.

Lemma mudras_ready_readsensor d st :
  0 <= d -> ready st -> ready (readsensor d st).
Proof.
  intros Hd [H1 H2 H3 H4].
  destruct (mudras_readsensor_frame d st) as (_ & _ & _ & E4 & E5 & E6 & _).
  constructor; rewrite ?E4, ?E5, ?E6; try assumption.
  apply mudras_readsensor_mm_range. assumption.
Qed.

(** Every entry of the scale table that an index up to 23 selects
    converts to a DAC code. *)
Lemma mudras_scale_lookup_total m idx :
  0 <= m <= 6 -> 0 <= idx <= 23 ->
  exists row note d,
    scale !! Z.to_nat m = Some row /\
    load row idx = Some note /\
    Codec.volts_to_DAC (Codec.midi_note_to_volts (note mod 2 ^ 32))
      Codec.RESOLUTION_12_BIT Codec.f0_0 Codec.f3_3 = Some d.
Proof.
  intros Hm Hi.
  assert (forallb
            (fun m =>
               forallb
                 (fun idx =>
                    match
                      (row ← scale !! Z.to_nat m;
                       note ← load row idx;
                       Codec.volts_to_DAC
                         (Codec.midi_note_to_volts (note mod 2 ^ 32))
                         Codec.RESOLUTION_12_BIT Codec.f0_0 Codec.f3_3)
                    with
                    | Some _ => true
                    | None => false
                    end) (seqZ 0 24)) (seqZ 0 7) = true) as H
    by (vm_compute; reflexivity).
  rewrite forallb_forall in H.
  assert (In m (seqZ 0 7)) as Hin
    by (apply list_elem_of_In, elem_of_seqZ; lia).
  specialize (H m Hin). rewrite forallb_forall in H.
  assert (In idx (seqZ 0 24)) as Hin'
    by (apply list_elem_of_In, elem_of_seqZ; lia).
  specialize (H idx Hin').
  destruct (scale !! Z.to_nat m) as [row|] eqn:E1; [|discriminate H].
  cbn [mbind option_bind] in H.
  destruct (load row idx) as [note|] eqn:E2; [|discriminate H].
  cbn [mbind option_bind] in H.
  destruct (Codec.volts_to_DAC _ _ _ _) as [d|] eqn:E3; [|discriminate H].
  exists row, note, d. auto.
Qed.

(** Recording at a cursor inside the array: the value of the active mode
    is stored at the cursor and played back at once. *)
Lemma mudras_recordSeq_at_cursor st :
  ready st -> 0 <= count st <= 63 ->
  exists st',
    recordSeq st = Some st' /\
    sequence st' =
      <[Z.to_nat (count st) :=
          if NoteMode st =? 7 then raw_mm st else mm st]> (sequence st) /\
    count st' = count st /\
    countFlag st' = countFlag st /\
    exists code, PA4 st' = code :: PA4 st.
Proof.
  intros [H1 H2 H3 H4] Hc. unfold recordSeq.
  destruct (Z.eqb_spec (NoteMode st) 7) as [Hm|Hm].
  - rewrite store_in_range by lia. fields.
    unfold playSeq. fields. rewrite Hm. cbn [Z.eqb Pos.eqb].
    erewrite load_store_same by (apply store_in_range; lia). fields.
    eexists. repeat split. eexists. reflexivity.
  - rewrite store_in_range by lia. fields.
    unfold playSeq. fields.
    destruct (Z.eqb_spec (NoteMode st) 7); [contradiction|].
    erewrite load_store_same by (apply store_in_range; lia). fields.
    destruct (Z.leb_spec 0 (NoteMode st)); [|lia].
    destruct (mudras_scale_lookup_total (NoteMode st) (mm st))
      as (row & note & d & E1 & E2 & E3); [lia|lia|].
    rewrite E1. fields. rewrite E2. fields. rewrite E3. fields.
    eexists. repeat split. eexists. reflexivity.
Qed.

(** A clock edge with the button held, after one with the button
    released ([countFlag = 1]): the cursor is set to 0, whatever it was,
    the flag is cleared and the recording lands on step 0. *)
Lemma mudras_loop_play_to_record i st :
  ready st -> valid i -> poo st = true -> held i = true ->
  countFlag st = 1 ->
  exists st' v,
    loop i st = Some st' /\
    count st' = 0 /\
    countFlag st' = 0 /\
    sequence st' = <[0%nat := v]> (sequence st).
Proof.
  intros Hr Hv Hp Hh Hf. unfold loop.
  set (st1 := knobs i st).
  set (st2 := match range i with Some d => readsensor d st1 | None => st1 end).
  assert (ready st2 /\ poo st2 = true /\ countFlag st2 = 1 /\
          sequence st2 = sequence st) as (Hr2 & Hp2 & Hf2 & Hs2).
  { assert (ready st1 /\ poo st1 = true /\ countFlag st1 = 1 /\
            sequence st1 = sequence st) as (A1 & A2 & A3 & A4).
    { split; [apply mudras_ready_knobs; assumption|]. subst st1.
      destruct (mudras_knobs_frame i st) as (-> & _ & -> & -> & _). auto. }
    subst st2. destruct (range i) as [d|] eqn:Er; [|auto].
    destruct (mudras_readsensor_frame d st1) as (-> & _ & -> & _ & _ & -> & _).
    split; [|auto]. apply mudras_ready_readsensor; [|assumption].
    apply (proj2 Hv d). exact Er. }
  clearbody st2. clear st1. rewrite Hp2, Hh. fields.
  match goal with
  | |- context [recordSeq ?s] =>
    assert (countFlag s = 0 /\ count s = 0 /\ ready s /\
            sequence s = sequence st2) as (B1 & B2 & B3 & B4)
  end.
  { destruct (count st2 + 1 >? countSize st2); fields;
      rewrite Hf2; cbn [Z.eqb Pos.eqb]; fields;
      (split; [reflexivity|]; split; [reflexivity|]; split; [|reflexivity]);
      destruct Hr2; constructor; assumption. }
  match goal with
  | |- context [recordSeq ?s] =>
    destruct (mudras_recordSeq_at_cursor s B3) as (st' & E & E1 & E2 & E3 & _);
      [lia|]
  end.
  rewrite B2, B4, Hs2 in E1. change (Z.to_nat 0) with 0%nat in E1.
  eexists. eexists. split; [exact E|].
  split; [congruence|]. split; [congruence|]. exact E1.
Qed.

(** A clock edge with the button released leaves the flag set. *)
Lemma mudras_loop_play_sets_flag i st st' :
  poo (knobs i st) = true -> held i = false ->
  loop i st = Some st' -> countFlag st' = 1.
Proof.
  intros Hp Hh. unfold loop.
  set (st1 := knobs i st) in *.
  assert (poo (match range i with
               | Some d => readsensor d st1
               | None => st1
               end) = true) as ->.
  { destruct (range i) as [d|]; [|assumption].
    destruct (mudras_readsensor_frame d st1) as (-> & _). assumption. }
  rewrite Hh. unfold playSeq. fields.
  destruct (NoteMode _ =? 7).
  - destruct (load _ _); [|discriminate]. fields.
    intros E. inversion E. reflexivity.
  - destruct (load _ _); [|discriminate]. fields.
    destruct (if 0 <=? _ then _ else _); [|discriminate]. fields.
    destruct (load _ _); [|discriminate]. fields.
    destruct (Codec.volts_to_DAC _ _ _ _); [|discriminate]. fields.
    intros E. inversion E. reflexivity.
Qed.

(** A reading above 675 mm leaves the index 0 in [mm], as the reading
    20 mm does; the linear value it leaves in [raw_mm] is -130, the
    [constrain] after the mapping being without effect. *)
Lemma mudras_readsensor_beyond_675 d st :
  675 < d ->
  mm (readsensor d st) = 0 /\ mm (readsensor 20 st) = 0 /\
  raw_mm (readsensor d st) = -130 /\ raw_mm (readsensor 20 st) = 0.
Proof.
  intros Hd. unfold readsensor. fields.
  replace (d >? 675) with true
    by (symmetry; rewrite Z.gtb_ltb; apply Z.ltb_lt; exact Hd).
  repeat split.
Qed.

(** In a scale mode, with the index 0 in [mm], the index 0 is stored at
    the cursor and the code 0 is written to the DAC. *)
Lemma mudras_recordSeq_scale_index_0 st :
  mm st = 0 -> 0 <= NoteMode st <= 6 -> 0 <= count st <= 63 ->
  length (sequence st) = 64%nat ->
  exists st',
    recordSeq st = Some st' /\
    sequence st' = <[Z.to_nat (count st) := 0]> (sequence st) /\
    PA4 st' = 0 :: PA4 st.
Proof.
  intros Hmm Hm Hc Hl. unfold recordSeq.
  destruct (Z.eqb_spec (NoteMode st) 7); [lia|].
  rewrite store_in_range by lia. fields.
  unfold playSeq. fields.
  destruct (Z.eqb_spec (NoteMode st) 7); [lia|].
  erewrite load_store_same by (apply store_in_range; lia). fields.
  rewrite Hmm.
  destruct (Z.leb_spec 0 (NoteMode st)); [|lia].
  assert (NoteMode st = 0 \/ NoteMode st = 1 \/ NoteMode st = 2 \/
          NoteMode st = 3 \/ NoteMode st = 4 \/ NoteMode st = 5 \/
          NoteMode st = 6) as C by lia.
  repeat destruct C as [C|C]; rewrite C;
    (eexists; split; [vm_compute; reflexivity|]; split; reflexivity).
Qed.

(** Linear mode at 700 mm: -130 is recorded at step 0 and written to the
    DAC. *)
Lemma mudras_linear_reading_700_records_negative :
  exists st,
    loop (mkInputs (Some 1023) None (Some 700) true) (gate (setup 500))
      = Some st /\
    NoteMode st = 7 /\
    load (sequence st) 0 = Some (-130) /\
    PA4 st = [-130].
Proof. eexists. split; [vm_compute; reflexivity|]. repeat split. Qed.

End EarlierSketch.

(** ** The two sketches side by side *)

(** C5 (amended).  Scale modes only.  In the complete sketch a reading
    above [TopRange] = 700 mm (700 mm itself is in range there) is recorded
    and played exactly as the reading 50 mm, the nearest valid distance:
    the note index stored at the cursor is 0.  In mudras.ino a reading
    above 675 mm is recorded and played as the reading 20 mm is: the index
    stored at the cursor is 0 and the code written to the DAC is 0. *)
Theorem C5_reading_beyond_ceiling_records_index_0
    (f : Firmware.state) (m : Mudras.state) (df dm : Z) :
  Firmware.inv f -> 0 <= Firmware.count f <= 63 ->
  Firmware.NoteMode f <> 7 ->
  Firmware.table_ok (Firmware.fullScales f) ->
  Firmware.table_bytes (Firmware.fullScales f) ->
  Firmware.TopRange < df ->
  length (Mudras.sequence m) = 64%nat -> 0 <= Mudras.count m <= 63 ->
  0 <= Mudras.NoteMode m <= 6 ->
  675 < dm ->
  (Firmware.recordSeq (Firmware.readsensor df f)
     = Firmware.recordSeq (Firmware.readsensor 50 f) /\
   exists f',
     Firmware.recordSeq (Firmware.readsensor df f) = Some f' /\
     load (Firmware.sequence f') (Firmware.count f) = Some 0) /\
  (exists m1 m2,
     Mudras.recordSeq (Mudras.readsensor dm m) = Some m1 /\
     Mudras.recordSeq (Mudras.readsensor 20 m) = Some m2 /\
     Mudras.sequence m1
       = <[Z.to_nat (Mudras.count m) := 0]> (Mudras.sequence m) /\
     Mudras.sequence m2 = Mudras.sequence m1 /\
     Mudras.PA4 m1 = 0 :: Mudras.PA4 m /\
     Mudras.PA4 m2 = Mudras.PA4 m1).
Proof.
  intros Hinv Hc Hm Hok Hbytes Hdf Hl Hcm Hmm Hdm. split.
  - split.
    + apply recordSeq_beyond_TopRange; [assumption| |assumption].
      apply (Firmware.inv_notes _ Hinv).
    + apply recordSeq_beyond_TopRange_stores_0; assumption.
  - destruct (mudras_readsensor_beyond_675 dm m Hdm) as (E1 & E2 & _).
    destruct (mudras_readsensor_frame dm m) as (_ & F2 & _ & F4 & _ & F6 & F7).
    destruct (mudras_readsensor_frame 20 m) as (_ & G2 & _ & G4 & _ & G6 & G7).
    destruct (mudras_recordSeq_scale_index_0 (Mudras.readsensor dm m))
      as (m1 & A1 & A2 & A3); rewrite ?F2, ?F4, ?F6; try assumption.
    destruct (mudras_recordSeq_scale_index_0 (Mudras.readsensor 20 m))
      as (m2 & B1 & B2 & B3); rewrite ?G2, ?G4, ?G6; try assumption.
    exists m1, m2.
    rewrite F2, F6 in A2. rewrite G2, G6 in B2.
    rewrite F7 in A3. rewrite G7 in B3.
    repeat split; congruence.
Qed.

(** C5 (witness).  Both sketches on step 2 of a loop in their first scale;
    the sensor reads 701 mm. *)
Lemma C5_witness_reading_701 :
  (Firmware.recordSeq (Firmware.readsensor 701 Firmware.mid_loop)
     = Firmware.recordSeq (Firmware.readsensor 50 Firmware.mid_loop) /\
   exists f',
     Firmware.recordSeq (Firmware.readsensor 701 Firmware.mid_loop)
       = Some f' /\
     load (Firmware.sequence f') (Firmware.count Firmware.mid_loop)
       = Some 0) /\
  (exists m1 m2,
     Mudras.recordSeq (Mudras.readsensor 701 Mudras.mid_loop) = Some m1 /\
     Mudras.recordSeq (Mudras.readsensor 20 Mudras.mid_loop) = Some m2 /\
     Mudras.sequence m1
       = <[Z.to_nat (Mudras.count Mudras.mid_loop) := 0]>
           (Mudras.sequence Mudras.mid_loop) /\
     Mudras.sequence m2 = Mudras.sequence m1 /\
     Mudras.PA4 m1 = 0 :: Mudras.PA4 Mudras.mid_loop /\
     Mudras.PA4 m2 = Mudras.PA4 m1).
Proof.
  apply C5_reading_beyond_ceiling_records_index_0.
  - constructor; simpl; [reflexivity | reflexivity | | lia | lia].
    repeat constructor; lia.
  - simpl. lia.
  - simpl. discriminate.
  - split; [reflexivity|]. repeat constructor.
  - vm_compute. repeat constructor; discriminate.
  - reflexivity.
  - reflexivity.
  - simpl. lia.
  - simpl. lia.
  - reflexivity.
Defined.

(** * Further properties of the sources *)

(** ** Scale table generator, for any pattern *)

Section ScaleGeneratorAnyPattern.
Import Scales.

(** The entries before the first sentinel are notes, and the sentinel
    follows them when the pattern holds one. *)
Lemma pattern_note pat j :
  (j < patternLength pat)%nat ->
  exists v, pat !! j = Some v /\ v <> 255.
Proof.
  revert j. induction pat as [|p pat IH]; intros j Hj; [simpl in Hj; lia|].
  cbn [patternLength] in Hj.
  destruct (Z.eqb_spec p 255) as [|Hp]; [lia|].
  destruct j as [|j].
  - exists p. auto.
  - apply IH. lia.
Qed.

Lemma pattern_sentinel pat :
  (patternLength pat < length pat)%nat ->
  pat !! patternLength pat = Some 255.
Proof.
  induction pat as [|p pat IH]; intros H; [simpl in H; lia|].
  cbn [patternLength] in *.
  destruct (Z.eqb_spec p 255) as [->|Hp]; [reflexivity|].
  apply IH. simpl in H. lia.
Qed.

Lemma pattern_without_sentinel pat j :
  patternLength pat = length pat -> (j < length pat)%nat ->
  exists v, pat !! j = Some v /\ v <> 255.
Proof. intros E Hj. apply pattern_note. lia. Qed.

Lemma load_nat (a : list Z) (j : nat) : load a (Z.of_nat j) = a !! j.
Proof.
  unfold load. destruct (Z.leb_spec 0 (Z.of_nat j)); [|lia].
  rewrite Nat2Z.id. reflexivity.
Qed.

(** One step of the closed form: position [o * k + p] with [p < k] holds
    note [p] of octave [o]. *)
Lemma expected_at pat o p v :
  0 <= o <= 3 -> 0 <= p < Z.of_nat (patternLength pat) ->
  pat !! Z.to_nat p = Some v ->
  expected pat (o * Z.of_nat (patternLength pat) + p) = u8 (v + 12 * o).
Proof.
  intros Ho Hp Hv. unfold expected.
  set (k := Z.of_nat (patternLength pat)) in *.
  destruct (Z.ltb_spec (o * k + p) (4 * k)); [|nia].
  assert ((o * k + p) mod k = p) as ->.
  { rewrite Z.add_comm, Z.mod_add by lia. apply Z.mod_small. lia. }
  assert ((o * k + p) / k = o) as ->.
  { rewrite Z.add_comm, Z.div_add by lia. rewrite Z.div_small by lia. lia. }
  rewrite (nth_lookup_Some _ _ _ _ Hv). reflexivity.
Qed.

(** The loop, from any point it can reach, runs to its exit at position
    [min (4 k) 37] and leaves the closed form below it. *)
Lemma fill_closed_form pat fuel :
  (0 < patternLength pat < length pat)%nat ->
  forall row n p o,
    0 <= o <= 3 -> 0 <= p <= Z.of_nat (patternLength pat) ->
    n = o * Z.of_nat (patternLength pat) + p -> n <= 37 ->
    length row = 37%nat ->
    (forall i, 0 <= i < n -> row !! Z.to_nat i = Some (expected pat i)) ->
    37 - n < Z.of_nat fuel ->
    exists row' n',
      fill fuel pat row n p o (12 * o) = Done (row', n') /\
      n' = Z.min (4 * Z.of_nat (patternLength pat)) 37 /\
      length row' = 37%nat /\
      (forall i, 0 <= i < n' -> row' !! Z.to_nat i = Some (expected pat i)).
Proof.
  intros Hk. set (k := Z.of_nat (patternLength pat)) in *.
  assert (1 <= k) as Hk1 by lia.
  pose proof (pattern_sentinel pat (proj2 Hk)) as Hsent.
  induction fuel as [|fuel IH]; intros row n p o Ho Hp Hn Hn37 Hlen Hrow Hfuel;
    [lia|].
  cbn [fill].
  destruct (Z.ltb_spec n 37) as [Hlt|Hge].
  2:{ exists row, n. split; [reflexivity|]. split; [nia|]. auto. }
  assert (forall o' q v, 0 <= o' <= 3 -> 0 <= q < k -> n = o' * k + q ->
          pat !! Z.to_nat q = Some v ->
          exists row' n',
            fill fuel pat (<[Z.to_nat n := u8 (v + 12 * o')]> row)
              (u8 (n + 1)) (u8 (q + 1)) o' (12 * o') = Done (row', n') /\
            n' = Z.min (4 * k) 37 /\ length row' = 37%nat /\
            (forall i, 0 <= i < n' ->
               row' !! Z.to_nat i = Some (expected pat i)))
    as Hwrite.
  { intros o' q v Ho' Hq Hn' Hv.
    rewrite (u8_small (n + 1)), (u8_small (q + 1)) by nia.
    apply IH; try lia.
    - rewrite length_insert. exact Hlen.
    - intros i Hi. destruct (Z.eq_dec i n) as [->|Hne].
      + rewrite list_lookup_insert_eq by lia.
        rewrite Hn'. f_equal. symmetry. apply expected_at; assumption.
      + rewrite list_lookup_insert_ne by lia. apply Hrow. lia. }
  destruct (Z.eq_dec p k) as [->|Hpk].
  - unfold load at 1. destruct (Z.leb_spec 0 k); [|lia].
    unfold k at 1. rewrite Nat2Z.id, Hsent.
    cbn [Z.eqb Pos.eqb].
    destruct (Z.eq_dec o 3) as [->|Ho3].
    + cbn. exists row, n. split; [reflexivity|]. split; [lia|]. auto.
    + rewrite (u8_small (o + 1)) by lia.
      destruct (Z.geb_spec (o + 1) 4); [lia|].
      destruct (pattern_note pat 0) as (v0 & Hv0 & _); [lia|].
      unfold load. change (0 <=? 0) with true. change (Z.to_nat 0) with 0%nat.
      cbv iota. rewrite Hv0.
      replace (u8 ((o + 1) * 12)) with (12 * (o + 1))
        by (rewrite u8_small; lia).
      apply (Hwrite (o + 1) 0 v0); [lia|lia|lia|exact Hv0].
  - destruct (pattern_note pat (Z.to_nat p)) as (v & Hv & Hv255); [lia|].
    assert (load pat p = Some v) as Hload.
    { unfold load. destruct (Z.leb_spec 0 p); [exact Hv|lia]. }
    rewrite Hload.
    destruct (Z.eqb_spec v 255); [contradiction|].
    rewrite Hload.
    apply (Hwrite o p v); [lia|lia|lia|exact Hv].
Qed.

(** X1.  For every pattern with at least one note and a sentinel inside
    the row, the generator completes, returns 37 entries and leaves the
    closed form: the pattern repeated an octave higher each time, for four
    octaves, then the padding 36. *)
Theorem X1_generateRow_closed_form pat :
  (0 < patternLength pat < length pat)%nat ->
  exists row,
    generateRow pat = Done row /\
    length row = 37%nat /\
    (forall i, 0 <= i < 37 -> row !! Z.to_nat i = Some (expected pat i)).
Proof.
  intros Hk. unfold generateRow.
  destruct (fill_closed_form pat 38 Hk (replicate 37 0) 0 0 0)
    as (row & n & E & Hn & Hlen & Hrow);
    try lia; try reflexivity.
  change (12 * 0) with 0 in E. rewrite E.
  eexists. split; [reflexivity|].
  assert (0 <= n <= 37) as Hn37 by lia.
  unfold memset.
  replace (n + (37 - n)) with 37 by lia.
  rewrite (drop_ge row) by lia. rewrite app_nil_r.
  split.
  - rewrite length_app, length_take, length_replicate. lia.
  - intros i Hi. destruct (Z.lt_ge_cases i n) as [Hlt|Hge].
    + rewrite lookup_app_l by (rewrite length_take; lia).
      rewrite lookup_take_lt by lia. apply Hrow. lia.
    + rewrite lookup_app_r by (rewrite length_take; lia).
      rewrite length_take.
      rewrite lookup_replicate_2 by lia.
      f_equal. unfold expected.
      destruct (Z.ltb_spec i (4 * Z.of_nat (patternLength pat)));
        [lia|reflexivity].
Qed.

(** X1 (witness).  The Major pattern: seven notes, then the sentinel. *)
Lemma X1_witness_major :
  exists row,
    generateRow [0; 2; 4; 5; 7; 9; 11; 255; 0; 0; 0; 0] = Done row /\
    length row = 37%nat /\
    (forall i, 0 <= i < 37 ->
       row !! Z.to_nat i
         = Some (expected [0; 2; 4; 5; 7; 9; 11; 255; 0; 0; 0; 0] i)).
Proof.
  apply X1_generateRow_closed_form. simpl. lia.
Defined.

(** Without a sentinel the pattern index follows the note index up to
    the end of the pattern. *)
Lemma fill_without_sentinel pat fuel :
  patternLength pat = length pat -> (length pat < 37)%nat ->
  forall row n,
    0 <= n <= Z.of_nat (length pat) ->
    Z.of_nat (length pat) - n < Z.of_nat fuel ->
    fill fuel pat row n n 0 0 = OutOfBounds.
Proof.
  intros Hno Hshort.
  induction fuel as [|fuel IH]; intros row n Hn Hfuel; [lia|].
  cbn [fill].
  destruct (Z.ltb_spec n 37); [|lia].
  destruct (Z.eq_dec n (Z.of_nat (length pat))) as [->|Hne].
  - rewrite load_out_of_range by lia. reflexivity.
  - destruct (pattern_without_sentinel pat (Z.to_nat n) Hno)
      as (v & Hv & Hv255); [lia|].
    assert (load pat n = Some v) as Hload.
    { unfold load. destruct (Z.leb_spec 0 n); [exact Hv|lia]. }
    rewrite Hload.
    destruct (Z.eqb_spec v 255); [contradiction|].
    rewrite Hload. rewrite (u8_small (n + 1)) by lia.
    apply IH; lia.
Qed.

(** X2.  A pattern that holds no sentinel and fewer than 37 entries makes
    the generator read the pattern one entry past its end, whatever its
    notes are. *)
Theorem X2_generateRow_without_sentinel pat :
  patternLength pat = length pat -> (length pat < 37)%nat ->
  generateRow pat = OutOfBounds.
Proof.
  intros Hno Hshort. unfold generateRow.
  rewrite (fill_without_sentinel pat 38 Hno Hshort); [reflexivity|lia|lia].
Qed.

(** X2 (witness).  Three notes and no sentinel. *)
Lemma X2_witness_three_notes : generateRow [0; 4; 7] = OutOfBounds.
Proof.
  apply X2_generateRow_without_sentinel; [reflexivity|simpl; lia].
Defined.

End ScaleGeneratorAnyPattern.

(** ** CV codec, over every byte *)

Section CVCodecBytes.
Import Codec.

(** The codes of neighbouring notes, computed for the 255 pairs. *)
Lemma note_to_DAC_next n :
  0 <= n < 255 ->
  exists a b,
    note_to_DAC n = Some a /\ note_to_DAC (n + 1) = Some b /\
    0 <= a /\ a < b.
Proof.
  intros Hn.
  assert (forallb
            (fun n => match note_to_DAC n, note_to_DAC (n + 1) with
                      | Some a, Some b => (0 <=? a) && (a <? b)
                      | _, _ => false
                      end) (seqZ 0 255) = true) as H
    by (vm_compute; reflexivity).
  rewrite forallb_forall in H. specialize (H n).
  destruct (note_to_DAC n) as [a|], (note_to_DAC (n + 1)) as [b|];
    try (assert (false = true) as F
           by (apply H, list_elem_of_In, elem_of_seqZ; lia);
         discriminate F).
  assert ((0 <=? a) && (a <? b) = true) as E
    by (apply H, list_elem_of_In, elem_of_seqZ; lia).
  apply andb_true_iff in E as [E1 E2].
  apply Z.leb_le in E1. apply Z.ltb_lt in E2.
  exists a, b. auto.
Qed.

(** X3.  Over the bytes, the semitone-to-code chain is defined and
    strictly increasing: a higher note never gets a lower or equal code.
    The code of note 39 is the last one within the 12 bits (4033) and the
    code of note 40 is the first one beyond them (4137). *)
Theorem X3_note_to_DAC_increasing n m :
  0 <= n -> n < m -> m <= 255 ->
  exists a b,
    note_to_DAC n = Some a /\ note_to_DAC m = Some b /\ 0 <= a /\ a < b /\
    (m <= 39 -> b <= 4033) /\ (40 <= m -> 4137 <= b).
Proof.
  intros Hn Hnm Hm.
  assert (forall d : nat, forall n, 0 <= n -> n + 1 + Z.of_nat d <= 255 ->
          exists a b, note_to_DAC n = Some a /\
                      note_to_DAC (n + 1 + Z.of_nat d) = Some b /\
                      0 <= a /\ a < b) as Hmono.
  { induction d as [|d IH]; intros k Hk Hd.
    - rewrite Z.add_0_r. apply note_to_DAC_next. lia.
    - destruct (IH k Hk) as (a & b & Ea & Eb & Ha & Hab); [lia|].
      destruct (note_to_DAC_next (k + 1 + Z.of_nat d))
        as (b' & c & Eb' & Ec & _ & Hbc); [lia|].
      rewrite Eb in Eb'. inversion Eb'; subst b'.
      exists a, c. replace (k + 1 + Z.of_nat (S d))
        with (k + 1 + Z.of_nat d + 1) by lia.
      repeat split; (assumption || lia). }
  assert (forall x y b, x < y -> y <= 255 -> 0 <= x ->
          note_to_DAC y = Some b ->
          exists a, note_to_DAC x = Some a /\ 0 <= a /\ a < b) as Hlt.
  { intros x y b Hxy Hy Hx Ey.
    destruct (Hmono (Z.to_nat (y - x - 1)) x Hx) as (a & b' & Ea & Eb' & H);
      [lia|].
    replace (x + 1 + Z.of_nat (Z.to_nat (y - x - 1))) with y in Eb' by lia.
    rewrite Ey in Eb'. inversion Eb'; subst b'. exists a. tauto. }
  assert (note_to_DAC 39 = Some 4033) as E39 by (vm_compute; reflexivity).
  assert (note_to_DAC 40 = Some 4137) as E40 by (vm_compute; reflexivity).
  destruct (Hmono (Z.to_nat (m - n - 1)) n Hn) as (a & b & Ea & Eb & Ha & Hab);
    [lia|].
  replace (n + 1 + Z.of_nat (Z.to_nat (m - n - 1))) with m in Eb by lia.
  exists a, b. repeat split; try assumption.
  - intros Hm39. destruct (Z.eq_dec m 39) as [->|Hne].
    + rewrite E39 in Eb. inversion Eb. lia.
    + destruct (Hlt m 39 4033) as (b' & Eb' & _ & Hb'); try lia; [exact E39|].
      rewrite Eb in Eb'. inversion Eb'. lia.
  - intros Hm40. destruct (Z.eq_dec m 40) as [->|Hne].
    + rewrite E40 in Eb. inversion Eb. lia.
    + destruct (Hlt 40 m b) as (a' & Ea' & _ & Ha'); try lia; [exact Eb|].
      rewrite E40 in Ea'. inversion Ea'. lia.
Qed.

(** X3 (witness).  The notes one and two octaves up. *)
Lemma X3_witness_octaves :
  exists a b,
    note_to_DAC 12 = Some a /\ note_to_DAC 24 = Some b /\ 0 <= a /\ a < b /\
    (24 <= 39 -> b <= 4033) /\ (40 <= 24 -> 4137 <= b).
Proof. apply X3_note_to_DAC_increasing; lia. Defined.

(** The calibration offset of the complete sketch is zero: the ceiling it
    passes to the conversion is [3.3f] itself. *)
Lemma ceiling_with_fix :
  SFadd prec emax f3_3 Firmware.fix_ = f3_3.
Proof. vm_compute. reflexivity. Qed.

End CVCodecBytes.


(** ** The complete sketch: knobs, cursor and clock edges *)

Section CompleteSketchFurther.
Import Firmware.

Ltac fields :=
  cbn [clockInput count countSize NoteMode mm raw_mm dacU sequence
       sequenceLinear NumberOfNotes fullScales PA4
       set_clockInput set_count set_countSize set_NoteMode set_mm set_raw_mm
       set_dacU set_sequence set_sequenceLinear set_NumberOfNotes analogWrite
       gate reset readsensor mbind option_bind] in *.

Ltac band_cases :=
  repeat match goal with
         | |- context [?a <=? ?b] => destruct (Z.leb_spec a b)
         end.

(** X4.  The length knob always selects one of the seven loop lengths,
    whatever the reading (negative and beyond 1023 included), and a higher
    reading never selects a shorter loop. *)
Theorem X4_loopLength_total_and_monotone v1 v2 st1 st2 :
  v1 <= v2 ->
  In (countSize (loopLength v1 st1)) [1; 2; 3; 7; 15; 31; 63] /\
  countSize (loopLength v1 st1) <= countSize (loopLength v2 st2).
Proof.
  intros Hv. rewrite !loopLength_bands. split.
  - band_cases; simpl; tauto.
  - band_cases; lia.
Qed.

(** X4 (witness).  Readings 100 and 500. *)
Lemma X4_witness_100_500 :
  In (countSize (loopLength 100 mid_loop)) [1; 2; 3; 7; 15; 31; 63] /\
  countSize (loopLength 100 mid_loop) <= countSize (loopLength 500 mid_loop).
Proof. apply X4_loopLength_total_and_monotone. lia. Defined.

(** X5.  Apart from the reading 18, the scale knob selects a mode in
    0..7 that never decreases with the reading; a reading of 800 or more
    selects linear mode and leaves the note count of the last scale in
    place. *)
Theorem X5_scaleMode_monotone v1 v2 st1 st2 :
  v1 <> 18 -> v2 <> 18 -> v1 <= v2 ->
  0 <= NoteMode (scaleMode v1 st1) /\
  NoteMode (scaleMode v1 st1) <= NoteMode (scaleMode v2 st2) /\
  NoteMode (scaleMode v2 st2) <= 7 /\
  (800 <= v2 ->
   NoteMode (scaleMode v2 st2) = 7 /\
   NumberOfNotes (scaleMode v2 st2) = NumberOfNotes st2).
Proof.
  intros H1 H2 Hv. rewrite !scaleMode_bands by assumption.
  split; [band_cases; lia|]. split; [band_cases; lia|].
  split; [band_cases; lia|].
  intros H800. split; [band_cases; lia|].
  unfold scaleMode. repeat decide_test. reflexivity.
Qed.

(** X5 (witness).  Readings 100 and 900. *)
Lemma X5_witness_100_900 :
  0 <= NoteMode (scaleMode 100 mid_loop) /\
  NoteMode (scaleMode 100 mid_loop) <= NoteMode (scaleMode 900 mid_loop) /\
  NoteMode (scaleMode 900 mid_loop) <= 7 /\
  (800 <= 900 ->
   NoteMode (scaleMode 900 mid_loop) = 7 /\
   NumberOfNotes (scaleMode 900 mid_loop) = NumberOfNotes mid_loop).
Proof. apply X5_scaleMode_monotone; lia. Defined.

(** X6.  Started on step 0 and advanced [n] times with a fixed loop
    length, the cursor is on step [n mod (maxSize + 1)]: it visits
    0, 1, ..., maxSize and starts again, also for the longest byte
    length 255. *)
Theorem X6_cursor_after_n_edges maxSize n :
  0 <= maxSize <= 255 ->
  Nat.iter n (fun c => incrementAndWrapCount c maxSize) 0
    = Z.of_nat n mod (maxSize + 1).
Proof.
  intros Hm. induction n as [|n IH]; [reflexivity|].
  cbn [Nat.iter nat_rect]. unfold Nat.iter in IH. rewrite IH.
  pose proof (Z.mod_pos_bound (Z.of_nat n) (maxSize + 1)) as Hr.
  destruct (incrementAndWrapCount_cycle (Z.of_nat n mod (maxSize + 1)) maxSize)
    as [E _]; [lia|lia|].
  rewrite E.
  pose proof (Z.div_mod (Z.of_nat n) (maxSize + 1)) as Hdm.
  destruct (Z.ltb_spec (Z.of_nat n mod (maxSize + 1)) maxSize).
  - apply Z.mod_unique with (q := Z.of_nat n / (maxSize + 1)); lia.
  - apply Z.mod_unique with (q := Z.of_nat n / (maxSize + 1) + 1); lia.
Qed.

(** X6 (witness).  Six edges in a loop of 4 steps end on step 2. *)
Lemma X6_witness_six_edges :
  Nat.iter 6 (fun c => incrementAndWrapCount c 3) 0 = Z.of_nat 6 mod (3 + 1).
Proof. apply X6_cursor_after_n_edges. lia. Defined.


(** *** Runs that stay inside the arrays *)

Lemma incrementAndWrapCount_within c maxSize :
  0 <= c <= 63 -> 0 <= maxSize <= 63 ->
  0 <= incrementAndWrapCount c maxSize <= 63.
Proof.
  intros Hc Hm. unfold incrementAndWrapCount.
  rewrite u8_small by lia.
  destruct (c + 1 >? maxSize) eqn:E; [lia|].
  rewrite Z.gtb_ltb in E. apply Z.ltb_ge in E. lia.
Qed.

Lemma loopLength_within v st :
  0 <= countSize st <= 63 -> 0 <= countSize (loopLength v st) <= 63.
Proof. intros H. unfold loopLength. bands; fields; lia. Qed.

Lemma ReadKnobs_within i st :
  0 <= countSize st <= 63 -> 0 <= countSize (ReadKnobs i st) <= 63.
Proof.
  intros H. unfold ReadKnobs.
  assert (0 <= countSize (match knobScale i with
                          | Some v => scaleMode v st
                          | None => st
                          end) <= 63) as H'.
  { destruct (knobScale i) as [v|]; [|exact H].
    destruct (scaleMode_frame v st) as (_ & _ & -> & _). exact H. }
  destruct (knobLength i); [apply loopLength_within|]; exact H'.
Qed.

(** The loop length after an iteration is the one the knobs left. *)
Lemma loop_countSize i st st' :
  loop i st = Some st' -> inv st ->
  countSize st' = countSize (ReadKnobs i st).
Proof.
  unfold loop. intros E Hinv.
  set (st1 := ReadKnobs i st) in *.
  assert (inv st1) as Hinv1 by (apply inv_ReadKnobs; exact Hinv).
  set (st2 := match range i with Some d => readsensor d st1 | None => st1 end)
    in *.
  assert (inv st2 /\ countSize st2 = countSize st1) as [Hinv2 E2].
  { subst st2. destruct (range i); [|auto].
    split; [revert Hinv1; apply inv_frame; reflexivity|reflexivity]. }
  clearbody st2. rewrite <- E2. clear E2 Hinv1. clearbody st1.
  destruct (clockInput st2); [|inversion E; reflexivity].
  assert (inv (set_clockInput false st2)) as Hinv3
    by (revert Hinv2; apply inv_frame; reflexivity).
  destruct (held i).
  - destruct (recordSeq (set_clockInput false st2)) as [st3|] eqn:E3;
      [|discriminate].
    fields. inversion E; subst. fields.
    apply recordSeq_inv in E3 as (_ & _ & _ & F); [|assumption]. exact F.
  - destruct (playSeq (set_clockInput false st2)) as [st3|] eqn:E3;
      [|discriminate].
    fields. inversion E; subst. fields.
    apply playSeq_frame in E3 as (_ & _ & F & _). exact F.
Qed.

(** An iteration with no clock flag pending touches neither the cursor,
    nor the arrays, nor the output. *)
Lemma loop_idle i st :
  clockInput st = false ->
  exists st',
    loop i st = Some st' /\
    clockInput st' = false /\
    count st' = count st /\
    sequence st' = sequence st /\
    sequenceLinear st' = sequenceLinear st /\
    fullScales st' = fullScales st /\
    PA4 st' = PA4 st.
Proof.
  intros Hk. unfold loop.
  destruct (ReadKnobs_frame i st) as (F1 & F2 & _ & F4 & F5 & F6 & F7).
  set (st1 := ReadKnobs i st) in *.
  destruct (range i) as [d|]; fields; rewrite F1, Hk;
    (eexists; split; [reflexivity|]); fields; repeat split; congruence.
Qed.

Lemma loop_safe i st :
  safe st -> exists st', loop i st = Some st' /\ safe st'.
Proof.
  intros [Hinv Hc Hs Hok Hbytes].
  destruct (clockInput st) eqn:Hk.
  - destruct (loop_clock_edge i st Hinv Hk Hc Hok Hbytes)
      as (st' & E & Hinv' & Hfs & _ & Hcount & _).
    exists st'. split; [exact E|].
    pose proof (loop_countSize i st st' E Hinv) as Hsize.
    pose proof (ReadKnobs_within i st Hs) as Hs'.
    constructor; try assumption.
    + rewrite Hcount. apply incrementAndWrapCount_within; [lia|].
      rewrite Hsize. exact Hs'.
    + rewrite Hsize. exact Hs'.
    + rewrite Hfs. exact Hok.
    + rewrite Hfs. exact Hbytes.
  - destruct (loop_idle i st Hk) as (st' & E & _ & F2 & _ & _ & F6 & _).
    exists st'. split; [exact E|].
    pose proof (loop_inv i st st' E Hinv) as [Hinv' _].
    pose proof (loop_countSize i st st' E Hinv) as Hsize.
    pose proof (ReadKnobs_within i st Hs) as Hs'.
    constructor; try assumption; rewrite ?F2, ?F6, ?Hsize; assumption.
Qed.

Lemma step_safe e st :
  safe st -> exists st', step e st = Some st' /\ safe st'.
Proof.
  intros Hsafe. destruct e as [| |i]; cbn [step].
  - eexists. split; [reflexivity|].
    destruct Hsafe as [Hinv Hc Hs Hok Hbytes].
    constructor; fields; try assumption.
    revert Hinv. apply inv_frame; reflexivity.
  - eexists. split; [reflexivity|].
    destruct Hsafe as [Hinv Hc Hs Hok Hbytes].
    constructor; fields; try assumption; [|lia].
    revert Hinv. apply inv_frame; reflexivity.
  - apply loop_safe. exact Hsafe.
Qed.

Lemma run_safe evs st :
  safe st -> exists st', run evs st = Some st' /\ safe st'.
Proof.
  revert st. induction evs as [|e evs IH]; intros st Hsafe.
  - exists st. auto.
  - cbn [run]. destruct (step_safe e st Hsafe) as (st1 & -> & Hsafe1).
    fields. apply IH. exact Hsafe1.
Qed.

Lemma setup_reset_safe fs seqLength scalemode :
  table_ok fs -> table_bytes fs ->
  safe (reset (setup fs seqLength scalemode)).
Proof.
  intros Hok Hbytes.
  assert (fullScales (setup fs seqLength scalemode) = fs /\
          0 <= countSize (setup fs seqLength scalemode) <= 63) as [Hfs Hs].
  { unfold setup.
    destruct (scaleMode_frame scalemode
                (loopLength seqLength (analogWrite 0 (initial fs))))
      as (_ & _ & -> & _ & _ & _ & -> & _).
    destruct (loopLength_frame seqLength (analogWrite 0 (initial fs)))
      as (_ & _ & _ & _ & _ & _ & _ & -> & _).
    split; [reflexivity|]. apply loopLength_within. simpl. lia. }
  constructor; fields; try (rewrite Hfs; assumption); try assumption; [|lia].
  generalize (inv_setup fs seqLength scalemode).
  apply inv_frame; reflexivity.
Qed.

(** X9.  A clock edge is handled once.  After the iteration that handles
    it the flag is clear, and a further iteration without a new edge
    leaves the cursor, both arrays and the output as they are, whatever
    it reads from knobs, sensor and button. *)
Theorem X9_clock_edge_handled_once i j st :
  safe st -> clockInput st = true ->
  exists st1 st2,
    loop i st = Some st1 /\
    clockInput st1 = false /\
    loop j st1 = Some st2 /\
    count st2 = count st1 /\
    sequence st2 = sequence st1 /\
    sequenceLinear st2 = sequenceLinear st1 /\
    PA4 st2 = PA4 st1.
Proof.
  intros [Hinv Hc Hs Hok Hbytes] Hk.
  destruct (loop_clock_edge i st Hinv Hk Hc Hok Hbytes)
    as (st1 & E1 & _ & _ & Hk1 & _).
  destruct (loop_idle j st1 Hk1) as (st2 & E2 & _ & F2 & F3 & F4 & _ & F6).
  exists st1, st2. auto 10.
Qed.

(** X9 (witness).  Step 2 of the Major loop, then an idle iteration in
    which the scale knob moves. *)
Lemma X9_witness_mid_loop :
  exists st1 st2,
    loop (mkInputs None None None false) mid_loop = Some st1 /\
    clockInput st1 = false /\
    loop (mkInputs (Some 300) None (Some 200) true) st1 = Some st2 /\
    count st2 = count st1 /\
    sequence st2 = sequence st1 /\
    sequenceLinear st2 = sequenceLinear st1 /\
    PA4 st2 = PA4 st1.
Proof.
  apply X9_clock_edge_handled_once; [|reflexivity].
  constructor.
  - constructor; simpl; [reflexivity | reflexivity | | lia | lia].
    repeat constructor; lia.
  - simpl. lia.
  - simpl. lia.
  - split; [reflexivity|]. repeat constructor.
  - vm_compute. repeat constructor; discriminate.
Defined.

End CompleteSketchFurther.

(** ** The complete sketch: recording and playing a step *)

Section CompleteSketchRecording.
Import Firmware.

Ltac fields :=
  cbn [clockInput count countSize NoteMode mm raw_mm dacU sequence
       sequenceLinear NumberOfNotes fullScales PA4
       set_clockInput set_count set_countSize set_NoteMode set_mm set_raw_mm
       set_dacU set_sequence set_sequenceLinear set_NumberOfNotes analogWrite
       gate reset readsensor mbind option_bind] in *.

Lemma constrain_inside amt low high :
  low <= amt <= high -> constrain amt low high = amt.
Proof.
  intros H. unfold constrain.
  destruct (Z.ltb_spec amt low); [lia|].
  destruct (amt >? high) eqn:E; [|reflexivity].
  rewrite Z.gtb_ltb in E. apply Z.ltb_lt in E. lia.
Qed.

Lemma map_monotone x1 x2 in_min in_max out_max :
  in_min <= x1 -> x1 <= x2 -> in_min < in_max -> 0 <= out_max ->
  map_ x1 in_min in_max 0 out_max <= map_ x2 in_min in_max 0 out_max.
Proof.
  intros H1 H12 Hlt Ho. unfold map_. rewrite !Z.sub_0_r, !Z.add_0_r.
  rewrite !Z.quot_div_nonneg by nia.
  apply Z.div_le_mono; nia.
Qed.

Lemma map_at_in_max in_min in_max out_max :
  in_min < in_max -> map_ in_max in_min in_max 0 out_max = out_max.
Proof.
  intros H. unfold map_. rewrite Z.sub_0_r, Z.add_0_r.
  rewrite Z.mul_comm. apply Z.quot_mul. lia.
Qed.

(** [playSeq] writes exactly one value to the output. *)
Lemma playSeq_output st st' :
  playSeq st = Some st' -> exists d, PA4 st' = d :: PA4 st.
Proof.
  unfold playSeq. intros E.
  destruct (negb (NoteMode st =? 7)).
  - destruct (load (sequence st) (count st)) as [idx|]; [|discriminate].
    fields.
    destruct (if 0 <=? NoteMode st
              then fullScales st !! Z.to_nat (NoteMode st) else None)
      as [row|]; [|discriminate].
    fields.
    destruct (load row idx) as [note|]; [|discriminate]. fields.
    destruct (Codec.volts_to_DAC _ _ _ _) as [d|]; [|discriminate].
    inversion E; subst. exists d. reflexivity.
  - destruct (load (sequenceLinear st) (count st)) as [v|]; [|discriminate].
    inversion E; subst. exists v. reflexivity.
Qed.

(** The value that [playSeq] writes depends on the mode, the cursor, the
    table and the content of the step under the cursor, on nothing else. *)
Lemma playSeq_determined st1 st1' st2 :
  playSeq st1 = Some st1' ->
  NoteMode st2 = NoteMode st1 -> count st2 = count st1 ->
  fullScales st2 = fullScales st1 ->
  load (sequence st2) (count st1) = load (sequence st1) (count st1) ->
  load (sequenceLinear st2) (count st1)
    = load (sequenceLinear st1) (count st1) ->
  exists st2' d,
    playSeq st2 = Some st2' /\
    PA4 st1' = d :: PA4 st1 /\ PA4 st2' = d :: PA4 st2.
Proof.
  unfold playSeq. intros E Em Ec Ef Es El.
  rewrite Em, Ec, Ef, Es, El.
  destruct (negb (NoteMode st1 =? 7)).
  - destruct (load (sequence st1) (count st1)) as [idx|]; [|discriminate].
    fields.
    destruct (if 0 <=? NoteMode st1
              then fullScales st1 !! Z.to_nat (NoteMode st1) else None)
      as [row|]; [|discriminate].
    fields.
    destruct (load row idx) as [note|]; [|discriminate]. fields.
    destruct (Codec.volts_to_DAC _ _ _ _) as [d|]; [|discriminate].
    inversion E; subst. eexists. exists d. repeat split.
  - destruct (load (sequenceLinear st1) (count st1)) as [v|]; [|discriminate].
    inversion E; subst. eexists. exists v. repeat split.
Qed.

(** X10.  Record, then play.  With the cursor inside the arrays,
    [recordSeq] completes and writes one code to the output; playing the
    step later, in any state that has the same mode, cursor and table and
    still holds what was stored under the cursor, writes that same code,
    whatever happened to the other steps and to the rest of the state. *)
Theorem X10_played_back_as_recorded st :
  safe st ->
  exists st1 code,
    recordSeq st = Some st1 /\
    PA4 st1 = code :: PA4 st /\
    forall st2,
      NoteMode st2 = NoteMode st -> count st2 = count st ->
      fullScales st2 = fullScales st ->
      load (sequence st2) (count st) = load (sequence st1) (count st) ->
      load (sequenceLinear st2) (count st)
        = load (sequenceLinear st1) (count st) ->
      exists st3, playSeq st2 = Some st3 /\ PA4 st3 = code :: PA4 st2.
Proof.
  intros [Hinv Hc Hs Hok Hbytes]. rewrite recordSeq_stored.
  destruct (stored_at_cursor st Hinv Hc)
    as (sts & -> & Hinvs & E1 & E2 & E3 & E4 & E5 & E5' & E6).
  fields.
  destruct (playSeq_succeeds sts Hinvs) as [st1 E];
    [lia | rewrite E4; assumption | rewrite E4; assumption|].
  destruct (playSeq_output sts st1 E) as [code Hcode].
  pose proof (playSeq_frame sts st1 E)
    as (_ & F2 & _ & F4 & _ & _ & _ & F8 & F9 & F10).
  exists st1, code. split; [exact E|]. split; [congruence|].
  intros st2 Gm Gc Gf Gs Gl.
  destruct (playSeq_determined sts st1 st2 E)
    as (st3 & d & P1 & P2 & P3); try congruence.
  exists st3. split; [exact P1|]. congruence.
Qed.

(** X10 (witness).  Step 2 of the Major loop, the hand at 400 mm. *)
Lemma X10_witness_mid_loop :
  exists st1 code,
    recordSeq mid_loop = Some st1 /\
    PA4 st1 = code :: PA4 mid_loop /\
    forall st2,
      NoteMode st2 = NoteMode mid_loop -> count st2 = count mid_loop ->
      fullScales st2 = fullScales mid_loop ->
      load (sequence st2) (count mid_loop)
        = load (sequence st1) (count mid_loop) ->
      load (sequenceLinear st2) (count mid_loop)
        = load (sequenceLinear st1) (count mid_loop) ->
      exists st3, playSeq st2 = Some st3 /\ PA4 st3 = code :: PA4 st2.
Proof.
  apply X10_played_back_as_recorded.
  constructor.
  - constructor; simpl; [reflexivity | reflexivity | | lia | lia].
    repeat constructor; lia.
  - simpl. lia.
  - simpl. lia.
  - split; [reflexivity|]. repeat constructor.
  - vm_compute. repeat constructor; discriminate.
Defined.

(** A reading inside the range, in a scale mode: the note index stored
    under the cursor and left in [mm] is the mapped distance. *)
Lemma recordSeq_scale_in_range st d :
  safe st -> NoteMode st <> 7 -> 50 <= d <= TopRange ->
  exists st',
    recordSeq (readsensor d st) = Some st' /\
    load (sequence st') (count st)
      = Some (map_ d 50 TopRange 0 (NumberOfNotes st)) /\
    mm st' = map_ d 50 TopRange 0 (NumberOfNotes st) /\
    NoteMode st' = NoteMode st.
Proof.
  intros [Hinv Hc Hs Hok Hbytes] Hm Hd.
  pose proof Hinv as [H1 H2 H3 H4 H5].
  assert (0 <= map_ d 50 TopRange 0 (NumberOfNotes st) <= NumberOfNotes st)
    as Hv by (apply map_range; unfold TopRange in *; lia).
  rewrite recordSeq_stored. unfold stored. fields.
  replace ((d >? TopRange) || (d <? 50)) with false; cycle 1.
  { symmetry. apply orb_false_iff. split.
    - rewrite Z.gtb_ltb. apply Z.ltb_ge. lia.
    - apply Z.ltb_ge. lia. }
  replace (negb (NoteMode st =? 7)) with true; cycle 1.
  { symmetry. apply negb_true_iff, Z.eqb_neq. exact Hm. }
  rewrite constrain_inside by exact Hv.
  rewrite u8_small by lia.
  rewrite store_in_range by lia. fields.
  match goal with
  | |- context [playSeq ?s] =>
    destruct (playSeq_succeeds s) as [st' E]
  end; fields; try assumption.
  { constructor; fields; try assumption.
    - rewrite length_insert. assumption.
    - apply Forall_insert; [assumption|]. lia. }
  exists st'. split; [exact E|].
  apply playSeq_frame in E as (_ & _ & _ & F4 & _ & F6 & _ & F8 & _).
  fields. rewrite F8, F6, F4. split; [|auto].
  unfold load. destruct (Z.leb_spec 0 (count st)); [|lia].
  apply list_lookup_insert_eq. lia.
Qed.

(** X11.  In a scale mode the recorded note index follows the hand: over
    the range 50 mm to 700 mm a farther hand never records a lower index,
    50 mm records index 0 and 700 mm records [NumberOfNotes], the top of
    the band. *)
Theorem X11_index_follows_distance st d1 d2 :
  safe st -> NoteMode st <> 7 ->
  50 <= d1 -> d1 <= d2 -> d2 <= TopRange ->
  exists s1 s2 v1 v2,
    recordSeq (readsensor d1 st) = Some s1 /\
    recordSeq (readsensor d2 st) = Some s2 /\
    load (sequence s1) (count st) = Some v1 /\
    load (sequence s2) (count st) = Some v2 /\
    0 <= v1 /\ v1 <= v2 /\ v2 <= NumberOfNotes st /\
    (d1 = 50 -> v1 = 0) /\
    (d2 = TopRange -> v2 = NumberOfNotes st).
Proof.
  intros Hsafe Hm H1 H12 H2.
  pose proof (inv_notes _ (safe_inv _ Hsafe)) as Hn.
  destruct (recordSeq_scale_in_range st d1 Hsafe Hm) as (s1 & E1 & L1 & _);
    [lia|].
  destruct (recordSeq_scale_in_range st d2 Hsafe Hm) as (s2 & E2 & L2 & _);
    [lia|].
  exists s1, s2, (map_ d1 50 TopRange 0 (NumberOfNotes st)),
    (map_ d2 50 TopRange 0 (NumberOfNotes st)).
  assert (50 < TopRange) as Hr by reflexivity.
  repeat split; try assumption.
  - apply map_range; lia.
  - apply map_monotone; lia.
  - apply map_range; lia.
  - intros ->. apply map_at_in_min. exact Hr.
  - intros ->. apply map_at_in_max. exact Hr.
Qed.

(** X11 (witness).  Step 2 of the Major loop, readings 200 mm and 600 mm. *)
Lemma X11_witness_200_600 :
  exists s1 s2 v1 v2,
    recordSeq (readsensor 200 mid_loop) = Some s1 /\
    recordSeq (readsensor 600 mid_loop) = Some s2 /\
    load (sequence s1) (count mid_loop) = Some v1 /\
    load (sequence s2) (count mid_loop) = Some v2 /\
    0 <= v1 /\ v1 <= v2 /\ v2 <= NumberOfNotes mid_loop /\
    (200 = 50 -> v1 = 0) /\
    (600 = TopRange -> v2 = NumberOfNotes mid_loop).
Proof.
  apply X11_index_follows_distance; try (simpl; lia); try discriminate.
  constructor.
  - constructor; simpl; [reflexivity | reflexivity | | lia | lia].
    repeat constructor; lia.
  - simpl. lia.
  - simpl. lia.
  - split; [reflexivity|]. repeat constructor.
  - vm_compute. repeat constructor; discriminate.
Defined.

(** A value of [mm] on either side of the range stores the index 0 in
    [sequence] under the cursor, in every mode, and leaves
    [sequenceLinear] as it is. *)
Lemma recordSeq_out_of_range st :
  safe st -> mm st < 50 \/ TopRange < mm st ->
  exists st',
    recordSeq st = Some st' /\
    load (sequence st') (count st) = Some 0 /\
    sequenceLinear st' = sequenceLinear st /\
    count st' = count st.
Proof.
  intros [Hinv Hc Hs Hok Hbytes] Hout.
  pose proof Hinv as [H1 H2 H3 H4 H5].
  rewrite recordSeq_stored. unfold stored. fields.
  replace ((mm st >? TopRange) || (mm st <? 50)) with true; cycle 1.
  { symmetry. apply orb_true_iff. rewrite Z.gtb_ltb.
    destruct Hout; [right; apply Z.ltb_lt|left; apply Z.ltb_lt]; assumption. }
  rewrite store_in_range by lia. fields.
  match goal with
  | |- context [playSeq ?s] =>
    destruct (playSeq_succeeds s) as [st' E]
  end; fields; try assumption.
  { constructor; fields; try assumption.
    - rewrite length_insert. assumption.
    - apply Forall_insert; [assumption|]. change (u8 0) with 0. lia. }
  exists st'. split; [exact E|].
  apply playSeq_frame in E as (_ & F2 & _ & _ & _ & _ & _ & F8 & F9 & _).
  fields. rewrite F8, F9, F2. split; [|auto].
  unfold load. destruct (Z.leb_spec 0 (count st)); [|lia].
  apply list_lookup_insert_eq. lia.
Qed.

(** X12.  Out of range on either side.  A value of [mm] below 50 or
    above 700 makes [recordSeq] store the index 0 in [sequence] under the
    cursor, in scale modes and in linear mode alike, and leave every step
    of [sequenceLinear] as it is. *)
Theorem X12_out_of_range_stores_0 st d :
  safe st -> d < 50 \/ TopRange < d ->
  exists st',
    recordSeq (readsensor d st) = Some st' /\
    load (sequence st') (count st) = Some 0 /\
    sequenceLinear st' = sequenceLinear st.
Proof.
  intros Hsafe Hd.
  destruct (recordSeq_out_of_range (readsensor d st))
    as (st' & E & L & F & _).
  - destruct Hsafe as [Hinv Hc Hs Hok Hbytes].
    constructor; fields; try assumption.
    revert Hinv. apply inv_frame; reflexivity.
  - fields. exact Hd.
  - exists st'. fields. auto.
Qed.

(** X12 (witness).  Step 2 of the Major loop, the hand at 30 mm. *)
Lemma X12_witness_30_mm :
  exists st',
    recordSeq (readsensor 30 mid_loop) = Some st' /\
    load (sequence st') (count mid_loop) = Some 0 /\
    sequenceLinear st' = sequenceLinear mid_loop.
Proof.
  apply X12_out_of_range_stores_0; [|left; lia].
  constructor.
  - constructor; simpl; [reflexivity | reflexivity | | lia | lia].
    repeat constructor; lia.
  - simpl. lia.
  - simpl. lia.
  - split; [reflexivity|]. repeat constructor.
  - vm_compute. repeat constructor; discriminate.
Defined.

(** X13.  One sensor sample, two record edges.  In a scale mode
    [recordSeq] replaces the distance in [mm] by the note index it stored,
    a value below 50.  When the next clock edge comes with the button
    held and no new sample has been read, that index is taken for a
    distance out of range: the step it records gets the index 0, whatever
    the distance of the sample was. *)
Theorem X13_second_record_on_one_sample st d :
  safe st -> clockInput st = true -> NoteMode st <> 7 ->
  exists st1 st2,
    loop (mkInputs None None (Some d) true) st = Some st1 /\
    loop (mkInputs None None None true) (gate st1) = Some st2 /\
    load (sequence st2) (count st1) = Some 0.
Proof.
  intros Hsafe Hk Hm.
  destruct (loop_safe (mkInputs None None (Some d) true) st Hsafe)
    as (st1 & E1 & Hsafe1).
  exists st1.
  assert (0 <= mm st1 <= 35 /\ NoteMode st1 <> 7) as [Hmm Hm1].
  { unfold loop in E1. cbn [ReadKnobs knobScale knobLength range held] in E1.
    fields. rewrite Hk in E1.
    destruct (recordSeq (set_clockInput false (readsensor d st)))
      as [s|] eqn:Er; [|discriminate].
    fields. inversion E1; subst st1. fields.
    pose proof (inv_notes _ (safe_inv _ Hsafe)) as Hn.
    destruct (Z_le_gt_dec 50 d) as [Hge|Hlt];
      [destruct (Z_le_gt_dec d TopRange) as [Hle|Hgt]|].
    - destruct (recordSeq_scale_in_range (set_clockInput false st) d)
        as (s' & Es & _ & Fm & Fn); try assumption; [|lia|].
      { destruct Hsafe as [Hinv Hc Hs Hok Hbytes].
        constructor; fields; try assumption.
        revert Hinv. apply inv_frame; reflexivity. }
      change (readsensor d (set_clockInput false st))
        with (set_clockInput false (readsensor d st)) in Es.
      rewrite Er in Es. inversion Es; subst s'. fields.
      rewrite Fm, Fn. split; [|exact Hm].
      pose proof (map_range d 50 TopRange (NumberOfNotes st)) as Hr.
      unfold TopRange in *. lia.
    - rewrite recordSeq_stored in Er. unfold stored in Er. fields.
      replace ((d >? TopRange) || (d <? 50)) with true in Er; cycle 1.
      { symmetry. apply orb_true_iff. left. rewrite Z.gtb_ltb.
        apply Z.ltb_lt. lia. }
      destruct (store (sequence st) (count st) (u8 0)) as [a|];
        [|discriminate].
      fields.
      apply playSeq_frame in Er as (_ & _ & _ & F4 & _ & F6 & _).
      fields. rewrite F6, F4. split; [lia|exact Hm].
    - rewrite recordSeq_stored in Er. unfold stored in Er. fields.
      replace ((d >? TopRange) || (d <? 50)) with true in Er; cycle 1.
      { symmetry. apply orb_true_iff. right. apply Z.ltb_lt. lia. }
      destruct (store (sequence st) (count st) (u8 0)) as [a|];
        [|discriminate].
      fields.
      apply playSeq_frame in Er as (_ & _ & _ & F4 & _ & F6 & _).
      fields. rewrite F6, F4. split; [lia|exact Hm]. }
  unfold loop at 2. cbn [ReadKnobs knobScale knobLength range held].
  fields.
  destruct (recordSeq_out_of_range (set_clockInput false (gate st1)))
    as (s2 & E2 & L2 & _ & _).
  - destruct Hsafe1 as [Hinv Hc Hs Hok Hbytes].
    constructor; fields; try assumption.
    revert Hinv. apply inv_frame; reflexivity.
  - fields. left. lia.
  - fields. rewrite E2. fields.
    eexists. split; [exact E1|]. split; [reflexivity|]. fields. exact L2.
Qed.

(** X13 (witness).  Step 2 of the Major loop; the one sample is 400 mm. *)
Lemma X13_witness_400_mm :
  exists st1 st2,
    loop (mkInputs None None (Some 400) true) mid_loop = Some st1 /\
    loop (mkInputs None None None true) (gate st1) = Some st2 /\
    load (sequence st2) (count st1) = Some 0.
Proof.
  apply X13_second_record_on_one_sample; [|reflexivity|discriminate].
  constructor.
  - constructor; simpl; [reflexivity | reflexivity | | lia | lia].
    repeat constructor; lia.
  - simpl. lia.
  - simpl. lia.
  - split; [reflexivity|]. repeat constructor.
  - vm_compute. repeat constructor; discriminate.
Defined.

End CompleteSketchRecording.

(** ** The earlier sketch: knobs, sensor and clock edges *)

Section EarlierSketchFurther.
Import Mudras.

Ltac fields :=
  cbn [poo raw_mm mm count countFlag NoteMode countSize dacUnit sequence PA4
       set_poo set_raw_mm set_mm set_count set_countFlag set_NoteMode
       set_countSize set_dacUnit set_sequence analogWrite gate
       mbind option_bind] in *.

(** X14.  The knobs of the earlier sketch are rescaled with [map], whose
    division truncates: over the readings 0..1023 the last option of each
    knob, linear mode and the loop of 64 steps, is selected by the single
    reading 1023. *)
Theorem X14_top_option_at_1023_only v st :
  0 <= v <= 1023 ->
  (NoteMode (scaleMode v st) = 7 <-> v = 1023) /\
  (countSize (loopLength v st) = 63 <-> v = 1023).
Proof.
  intros Hv. unfold scaleMode, loopLength, map_. fields.
  rewrite !Z.add_0_r, !Z.sub_0_r.
  rewrite !Z.quot_div_nonneg by lia.
  pose proof (Z.div_mod (v * 7) 1023) as D7.
  pose proof (Z.mod_pos_bound (v * 7) 1023) as M7.
  pose proof (Z.div_mod (v * 6) 1023) as D6.
  pose proof (Z.mod_pos_bound (v * 6) 1023) as M6.
  split; [lia|].
  assert (0 <= v * 6 / 1023 <= 6) as Hr by lia.
  assert (v * 6 / 1023 = 0 \/ v * 6 / 1023 = 1 \/ v * 6 / 1023 = 2 \/
          v * 6 / 1023 = 3 \/ v * 6 / 1023 = 4 \/ v * 6 / 1023 = 5 \/
          v * 6 / 1023 = 6) as C by lia.
  repeat destruct C as [C|C]; rewrite C in *; cbn; lia.
Qed.

(** X14 (witness).  The reading 1022. *)
Lemma X14_witness_1022 :
  (NoteMode (scaleMode 1022 mid_loop) = 7 <-> 1022 = 1023) /\
  (countSize (loopLength 1022 mid_loop) = 63 <-> 1022 = 1023).
Proof. apply X14_top_option_at_1023_only. lia. Defined.

(** X15.  What the sensor handler leaves for a reading [d >= 0].  The
    note index in [mm] is always within 0..18, although the [constrain]
    after it has no effect.  The linear value in [raw_mm] is between -130
    and 4257, and it is a 12-bit code exactly when the reading is between
    20 mm and 650 mm: closer, or beyond 675 mm, it is negative, and from
    651 mm to 675 mm it exceeds 4095. *)
Theorem X15_readsensor_ranges d st :
  0 <= d ->
  0 <= mm (readsensor d st) <= 18 /\
  -130 <= raw_mm (readsensor d st) <= 4257 /\
  (0 <= raw_mm (readsensor d st) <= 4095 <-> 20 <= d <= 650).
Proof.
  intros Hd. split; [apply mudras_readsensor_mm_range; exact Hd|].
  unfold readsensor. fields.
  destruct (d >? 675) eqn:E; fields.
  - rewrite Z.gtb_ltb in E. apply Z.ltb_lt in E.
    change (map_ 0 20 650 0 4095) with (-130). lia.
  - rewrite Z.gtb_ltb in E. apply Z.ltb_ge in E.
    unfold map_. rewrite Z.add_0_r, Z.sub_0_r. change (650 - 20) with 630.
    destruct (Z.le_gt_cases 20 d) as [Hge|Hlt].
    + rewrite Z.quot_div_nonneg by lia.
      pose proof (Z.div_mod ((d - 20) * 4095) 630) as D.
      pose proof (Z.mod_pos_bound ((d - 20) * 4095) 630) as M.
      lia.
    + replace ((d - 20) * 4095) with (- ((20 - d) * 4095)) by lia.
      rewrite Z.quot_opp_l by lia.
      rewrite Z.quot_div_nonneg by lia.
      pose proof (Z.div_mod ((20 - d) * 4095) 630) as D.
      pose proof (Z.mod_pos_bound ((20 - d) * 4095) 630) as M.
      lia.
Qed.

(** X15 (witness).  The reading 660 mm. *)
Lemma X15_witness_660_mm :
  0 <= mm (readsensor 660 mid_loop) <= 18 /\
  -130 <= raw_mm (readsensor 660 mid_loop) <= 4257 /\
  (0 <= raw_mm (readsensor 660 mid_loop) <= 4095 <-> 20 <= 660 <= 650).
Proof. apply X15_readsensor_ranges. lia. Defined.





(** Every row of the scale table has 24 entries. *)
Lemma mudras_scale_row m :
  0 <= m <= 6 ->
  exists row, scale !! Z.to_nat m = Some row /\ length row = 24%nat.
Proof.
  intros Hm.
  assert (m = 0 \/ m = 1 \/ m = 2 \/ m = 3 \/ m = 4 \/ m = 5 \/ m = 6)
    as C by lia.
  repeat destruct C as [C|C]; subst m; eexists; split; reflexivity.
Qed.

(** X17.  One array, two meanings.  A step recorded in linear mode holds
    the raw value; when a scale mode is selected afterwards and the step
    is played, that value is used as an index into a 24-entry row of the
    scale table, and the read is out of bounds as soon as the value is
    not within 0..23. *)
Theorem X17_linear_step_played_in_scale_mode st m :
  ready st -> 0 <= count st <= 63 -> NoteMode st = 7 ->
  raw_mm st < 0 \/ 24 <= raw_mm st ->
  0 <= m <= 6 ->
  exists st1,
    recordSeq st = Some st1 /\
    load (sequence st1) (count st) = Some (raw_mm st) /\
    playSeq (set_NoteMode m st1) = None.
Proof.
  intros Hr Hc Hlin Hraw Hm.
  destruct (mudras_recordSeq_at_cursor st Hr Hc) as (st1 & E & E1 & E2 & _).
  rewrite Hlin in E1. cbn [Z.eqb Pos.eqb] in E1.
  assert (load (sequence st1) (count st) = Some (raw_mm st)) as Hload.
  { rewrite E1. unfold load. destruct (Z.leb_spec 0 (count st)); [|lia].
    apply list_lookup_insert_eq. rewrite (ready_sequence _ Hr). lia. }
  exists st1. split; [exact E|]. split; [exact Hload|].
  unfold playSeq. fields. rewrite E2, Hload. fields.
  destruct (Z.eqb_spec m 7); [lia|].
  destruct (Z.leb_spec 0 m); [|lia].
  destruct (mudras_scale_row m Hm) as (row & -> & Hlen). fields.
  assert (load row (raw_mm st) = None) as ->; [|reflexivity].
  destruct Hraw as [Hneg|Hbig].
  - unfold load. destruct (Z.leb_spec 0 (raw_mm st)); [lia|reflexivity].
  - apply load_out_of_range. lia.
Qed.

(** X17 (witness).  Step 2, linear mode, raw value 1820 (the hand at
    300 mm), then the first scale. *)
Lemma X17_witness_raw_1820 :
  exists st1,
    recordSeq (set_raw_mm 1820 (set_NoteMode 7 mid_loop)) = Some st1 /\
    load (sequence st1) (count (set_raw_mm 1820 (set_NoteMode 7 mid_loop)))
      = Some (raw_mm (set_raw_mm 1820 (set_NoteMode 7 mid_loop))) /\
    playSeq (set_NoteMode 0 st1) = None.
Proof.
  apply X17_linear_step_played_in_scale_mode.
  - constructor; simpl; (reflexivity || lia).
  - simpl. lia.
  - reflexivity.
  - right. simpl. lia.
  - lia.
Defined.

(** [playSeq] and [recordSeq] leave the cursor, the flags and the loop
    length as they are. *)
Lemma mudras_playSeq_frame st st' :
  playSeq st = Some st' ->
  count st' = count st /\ countSize st' = countSize st /\
  countFlag st' = countFlag st /\ poo st' = poo st.
Proof.
  unfold playSeq. intros E.
  destruct (NoteMode st =? 7).
  - destruct (load (sequence st) (count st)); [|discriminate]. fields.
    inversion E; subst. repeat split.
  - destruct (load (sequence st) (count st)); [|discriminate]. fields.
    destruct (if 0 <=? NoteMode st then _ else _); [|discriminate]. fields.
    destruct (load _ _); [|discriminate]. fields.
    destruct (Codec.volts_to_DAC _ _ _ _); [|discriminate]. fields.
    inversion E; subst. repeat split.
Qed.

Lemma mudras_recordSeq_frame st st' :
  recordSeq st = Some st' ->
  count st' = count st /\ countSize st' = countSize st /\
  countFlag st' = countFlag st /\ poo st' = poo st.
Proof.
  unfold recordSeq. intros E.
  destruct (NoteMode st =? 7);
    (destruct (store _ _ _); [|discriminate]); fields;
    apply mudras_playSeq_frame in E; fields; exact E.
Qed.

(** X18.  The cursor of the earlier sketch after a clock edge.  Whenever
    an iteration that handles a clock edge completes, the cursor is within
    [0, countSize] and the clock flag is clear; and with the button held
    the iteration always completes. *)
Theorem X18_cursor_within_loop_after_edge i st :
  ready st -> valid i -> poo st = true -> -1 <= count st ->
  (forall st', loop i st = Some st' ->
     0 <= count st' <= countSize st' /\ poo st' = false) /\
  (held i = true -> exists st', loop i st = Some st').
Proof.
  intros Hr Hv Hp Hc. unfold loop.
  set (st1 := knobs i st).
  set (st2 := match range i with Some d => readsensor d st1 | None => st1 end).
  assert (ready st2 /\ poo st2 = true /\ count st2 = count st)
    as (Hr2 & Hp2 & Hc2).
  { assert (ready st1 /\ poo st1 = true /\ count st1 = count st)
      as (A1 & A2 & A3).
    { split; [apply mudras_ready_knobs; assumption|]. subst st1.
      destruct (mudras_knobs_frame i st) as (-> & -> & _). auto. }
    subst st2. destruct (range i) as [d|] eqn:Er; [|auto].
    destruct (mudras_readsensor_frame d st1) as (-> & -> & _).
    split; [|auto]. apply mudras_ready_readsensor; [|assumption].
    apply (proj2 Hv d). exact Er. }
  clearbody st2. clear st1. rewrite Hp2. fields.
  pose proof Hr2 as [R1 R2 R3 R4].
  set (s := if count st2 + 1 >? countSize st2
            then set_count 0 (set_count (count st2 + 1) (set_poo false st2))
            else set_count (count st2 + 1) (set_poo false st2)).
  assert (0 <= count s <= countSize s /\ poo s = false /\ ready s /\
          countSize s = countSize st2) as (Hs1 & Hs2 & Hs3 & Hs4).
  { subst s. destruct (count st2 + 1 >? countSize st2) eqn:E; fields.
    - split; [lia|]. split; [reflexivity|].
      split; [constructor; fields; assumption|reflexivity].
    - rewrite Z.gtb_ltb in E. apply Z.ltb_ge in E.
      split; [lia|]. split; [reflexivity|].
      split; [constructor; fields; assumption|reflexivity]. }
  clearbody s.
  set (r := if countFlag s =? 1 then set_countFlag 0 (set_count 0 s) else s).
  assert (0 <= count r <= countSize r /\ poo r = false /\ ready r)
    as (Hr1 & Hr2' & Hr3).
  { subst r. destruct (countFlag s =? 1); fields; [|auto].
    split; [lia|]. split; [assumption|].
    destruct Hs3. constructor; fields; assumption. }
  clearbody r.
  split.
  - intros st' E. destruct (held i).
    + apply mudras_recordSeq_frame in E as (-> & -> & _ & ->). auto.
    + apply mudras_playSeq_frame in E as (-> & -> & _ & ->). fields. auto.
  - intros ->.
    destruct (mudras_recordSeq_at_cursor r Hr3) as (st' & E & _).
    + pose proof (ready_size _ Hr3). lia.
    + exists st'. exact E.
Qed.

(** X18 (witness).  Step 2 of a 4-step loop, button held. *)
Lemma X18_witness_mid_loop :
  (forall st',
     loop (mkInputs None None (Some 400) true) mid_loop = Some st' ->
     0 <= count st' <= countSize st' /\ poo st' = false) /\
  (held (mkInputs None None (Some 400) true) = true ->
   exists st', loop (mkInputs None None (Some 400) true) mid_loop = Some st').
Proof.
  apply X18_cursor_within_loop_after_edge.
  - constructor; simpl; (reflexivity || lia).
  - split; simpl; intros x E; inversion E; lia.
  - reflexivity.
  - simpl. lia.
Defined.

End EarlierSketchFurther.

(** ** The complete sketch: the cursor along a run *)

Section CompleteSketchCursor.
Import Firmware.

Ltac fields :=
  cbn [clockInput count countSize NoteMode mm raw_mm dacU sequence
       sequenceLinear NumberOfNotes fullScales PA4
       set_clockInput set_count set_countSize set_NoteMode set_mm set_raw_mm
       set_dacU set_sequence set_sequenceLinear set_NumberOfNotes analogWrite
       gate reset readsensor mbind option_bind] in *.



Lemma ReadKnobs_keeps_length i st :
  knobLength i = None -> countSize (ReadKnobs i st) = countSize st.
Proof.
  intros H. unfold ReadKnobs. rewrite H.
  destruct (knobScale i) as [v|]; [|reflexivity].
  apply scaleMode_frame.
Qed.

Lemma advance_mod c m :
  0 <= c <= m -> (if c <? m then c + 1 else 0) = (c + 1) mod (m + 1).
Proof.
  intros H. destruct (Z.ltb_spec c m).
  - symmetry. apply Z.mod_small. lia.
  - assert (c = m) as -> by lia. symmetry. apply Z.mod_same. lia.
Qed.

(** X19.  The cursor along a run.  From a state inside the arrays with
    the cursor inside the loop, any number of clock edges, each handled by
    an iteration that does not move the length knob (scale knob, sensor
    and button are free), are all handled in bounds; the loop length is
    kept and the cursor has advanced by the number of edges, modulo
    [countSize + 1]. *)
Theorem X19_cursor_advances_modulo_length st (iterations : list inputs) :
  safe st -> count st <= countSize st ->
  Forall (fun i => knobLength i = None) iterations ->
  exists st',
    run (flat_map (fun i => [Gate; Loop i]) iterations) st = Some st' /\
    countSize st' = countSize st /\
    count st' =
      (count st + Z.of_nat (length iterations)) mod (countSize st + 1).
Proof.
  intros Hsafe Hle Hall. revert st Hsafe Hle.
  induction Hall as [|i rest Hi Hrest IH]; intros st Hsafe Hle.
  - exists st. split; [reflexivity|]. split; [reflexivity|].
    cbn [length Z.of_nat]. rewrite Z.add_0_r. symmetry.
    pose proof (safe_count _ Hsafe). apply Z.mod_small. lia.
  - cbn [flat_map app run step]. fields.
    destruct Hsafe as [Hinv Hc Hs Hok Hbytes].
    assert (safe (gate st)) as Hsafeg.
    { constructor; fields; try assumption.
      revert Hinv. apply inv_frame; reflexivity. }
    destruct (loop_safe i (gate st) Hsafeg) as (st1 & E1 & Hsafe1).
    destruct (loop_clock_edge i (gate st)) as (st1' & E1' & _ & _ & _ & Hcount & _);
      try (destruct Hsafeg; assumption); [reflexivity|].
    rewrite E1 in E1'. inversion E1'; subst st1'. clear E1'.
    pose proof (loop_countSize i (gate st) st1 E1 (safe_inv _ Hsafeg)) as Hsize.
    rewrite (ReadKnobs_keeps_length i (gate st) Hi) in Hsize. fields.
    rewrite Hsize in Hcount.
    destruct (incrementAndWrapCount_cycle (count st) (countSize st))
      as [Hcyc Hrange]; [lia|lia|].
    rewrite Hcyc, advance_mod in Hcount by lia.
    rewrite E1. fields.
    destruct (IH st1 Hsafe1) as (st' & E & Es & Ec).
    { rewrite Hsize, Hcount.
      pose proof (Z.mod_pos_bound (count st + 1) (countSize st + 1)). lia. }
    exists st'. split; [exact E|]. split; [congruence|].
    rewrite Ec, Hsize, Hcount. rewrite Z.add_mod_idemp_l by lia.
    f_equal. cbn [length]. lia.
Qed.

(** X19 (witness).  From step 2 of four: three edges, the first recorded,
    the others played, end on step 1. *)
Lemma X19_witness_three_edges :
  exists st',
    run (flat_map (fun i => [Gate; Loop i])
           [mkInputs None None (Some 400) true;
            mkInputs (Some 300) None None false;
            mkInputs None None None false]) mid_loop = Some st' /\
    countSize st' = countSize mid_loop /\
    count st' =
      (count mid_loop
       + Z.of_nat (length [mkInputs None None (Some 400) true;
                           mkInputs (Some 300) None None false;
                           mkInputs None None None false]))
      mod (countSize mid_loop + 1).
Proof.
  apply X19_cursor_advances_modulo_length.
  - constructor.
    + constructor; simpl; [reflexivity | reflexivity | | lia | lia].
      repeat constructor; lia.
    + simpl. lia.
    + simpl. lia.
    + split; [reflexivity|]. repeat constructor.
    + vm_compute. repeat constructor; discriminate.
  - simpl. lia.
  - repeat constructor.
Defined.

End CompleteSketchCursor.

(** ** The complete sketch: what a clock edge reads and writes *)

Section CompleteSketchEdge.
Import Firmware.

Ltac fields :=
  cbn [clockInput count countSize NoteMode mm raw_mm dacU sequence
       sequenceLinear NumberOfNotes fullScales PA4
       set_clockInput set_count set_countSize set_NoteMode set_mm set_raw_mm
       set_dacU set_sequence set_sequenceLinear set_NumberOfNotes analogWrite
       gate reset readsensor mbind option_bind] in *.

Lemma setup_table fs seqLength scalemode :
  fullScales (setup fs seqLength scalemode) = fs.
Proof.
  unfold setup.
  destruct (scaleMode_frame scalemode
              (loopLength seqLength (analogWrite 0 (initial fs))))
    as (_ & _ & _ & _ & _ & _ & -> & _).
  destruct (loopLength_frame seqLength (analogWrite 0 (initial fs)))
    as (_ & _ & _ & _ & _ & _ & _ & -> & _).
  reflexivity.
Qed.

(** C9.  In every state reached from [setup] without an out-of-bounds
    access, with a table of 7 rows of 37 entries: [NumberOfNotes] is at
    most 35 and so is every stored note index.  With the cursor inside
    [0, 63] and a scale mode selected, [playSeq] finds the index under the
    cursor, at most 35, the row of the mode, of 37 entries, and the entry
    at that index, and goes on to convert that entry: all three reads are
    inside their arrays, and with a table of bytes [playSeq] completes.
    A note index that [recordSeq] stores next is clamped to
    [0, NumberOfNotes], and with a table of bytes [recordSeq] completes. *)
Theorem C9_scale_lookup_within_row fs seqLength scalemode evs st :
  table_ok fs ->
  run evs (setup fs seqLength scalemode) = Some st ->
  0 <= count st <= 63 ->
  NoteMode st <> 7 ->
  0 <= NumberOfNotes st <= 35 /\
  Forall (fun v => 0 <= v <= 35) (sequence st) /\
  (exists idx row note,
     load (sequence st) (count st) = Some idx /\
     0 <= idx <= 35 /\
     fullScales st !! Z.to_nat (NoteMode st) = Some row /\
     length row = 37%nat /\
     load row idx = Some note /\
     playSeq st =
       (d ← Codec.volts_to_DAC (Codec.midi_note_to_volts note)
              Codec.RESOLUTION_12_BIT Codec.f0_0
              (SFadd Codec.prec Codec.emax Codec.f3_3 fix_);
        Some (analogWrite d (set_dacU d st))) /\
     (table_bytes fs ->
      exists d, playSeq st = Some (analogWrite d (set_dacU d st)))) /\
  (forall st', recordSeq st = Some st' ->
     exists v, load (sequence st') (count st) = Some v /\
               0 <= v <= NumberOfNotes st) /\
  (table_bytes fs -> exists st', recordSeq st = Some st').
Proof.
  intros Hok Hrun Hc Hm.
  pose proof Hok as [Hrows Hcols].
  destruct (run_inv _ _ _ Hrun (inv_setup _ _ _)) as [Hinv Hfs].
  assert (fullScales st = fs) as Hfs'
    by (rewrite Hfs; apply setup_table).
  pose proof Hinv as [H1 H2 H3 H4 H5].
  split; [assumption|]. split; [assumption|]. split; [|split].
  - destruct (load_in_range (sequence st) (count st)) as [idx Hidx]; [lia|].
    assert (0 <= idx <= 35) as Hi.
    { unfold load in Hidx. destruct (0 <=? count st); [|discriminate].
      exact (proj1 (Forall_lookup _ _) H3 _ _ Hidx). }
    destruct (lookup_lt_is_Some_2 fs (Z.to_nat (NoteMode st)))
      as [row Hrow]; [lia|].
    assert (length row = 37%nat) as Hlen
      by exact (proj1 (Forall_lookup _ _) Hcols _ _ Hrow).
    destruct (load_in_range row idx) as [note Hnote]; [lia|].
    assert (playSeq st =
            (d ← Codec.volts_to_DAC (Codec.midi_note_to_volts note)
                   Codec.RESOLUTION_12_BIT Codec.f0_0
                   (SFadd Codec.prec Codec.emax Codec.f3_3 fix_);
             Some (analogWrite d (set_dacU d st)))) as Hplay.
    { unfold playSeq.
      destruct (Z.eqb_spec (NoteMode st) 7); [contradiction|].
      cbn [negb]. rewrite Hidx. cbn [mbind option_bind].
      destruct (Z.leb_spec 0 (NoteMode st)); [|lia].
      rewrite Hfs', Hrow. cbn [mbind option_bind].
      rewrite Hnote. reflexivity. }
    exists idx, row, note. rewrite Hfs'.
    repeat (split; [assumption|]).
    intros Hbytes.
    assert (0 <= note < 256) as Hb.
    { pose proof (proj1 (Forall_lookup _ _) Hbytes _ _ Hrow) as Hr.
      unfold load in Hnote. destruct (0 <=? idx); [|discriminate].
      exact (proj1 (Forall_lookup _ _) Hr _ _ Hnote). }
    destruct (note_to_code_total note Hb) as [d Hd].
    exists d. rewrite Hplay, Hd. reflexivity.
  - intros st' E.
    destruct (recordSeq_scale_stores_clamped st st' E Hm H4)
      as (v & Hv & Hcount & E1 & _).
    exists v. split; [|assumption].
    rewrite E1. unfold load. destruct (Z.leb_spec 0 (count st)); [|lia].
    apply list_lookup_insert_eq. lia.
  - intros Hbytes. rewrite recordSeq_stored.
    destruct (stored_at_cursor st Hinv Hc)
      as (sts & -> & Hinvs & E1 & _ & _ & E4 & _).
    cbn [mbind option_bind].
    apply (playSeq_succeeds sts Hinvs);
      [lia | rewrite E4, Hfs'; exact Hok | rewrite E4, Hfs'; exact Hbytes].
Qed.

(** C9 (witness).  Major scale, loop of 4 steps; a reset edge, then a
    clock edge handled with the button held and the hand at 400 mm. *)
Lemma C9_witness_major_at_400 :
  exists st,
    run [Reset; Gate; Loop (mkInputs None None (Some 400) true)]
        (setup sample_table 100 0) = Some st /\
    0 <= NumberOfNotes st <= 35 /\
    Forall (fun v => 0 <= v <= 35) (sequence st) /\
    (exists idx row note,
       load (sequence st) (count st) = Some idx /\
       0 <= idx <= 35 /\
       fullScales st !! Z.to_nat (NoteMode st) = Some row /\
       length row = 37%nat /\
       load row idx = Some note /\
       playSeq st =
         (d ← Codec.volts_to_DAC (Codec.midi_note_to_volts note)
                Codec.RESOLUTION_12_BIT Codec.f0_0
                (SFadd Codec.prec Codec.emax Codec.f3_3 fix_);
          Some (analogWrite d (set_dacU d st))) /\
       (table_bytes sample_table ->
        exists d, playSeq st = Some (analogWrite d (set_dacU d st)))) /\
    (forall st', recordSeq st = Some st' ->
       exists v, load (sequence st') (count st) = Some v /\
                 0 <= v <= NumberOfNotes st) /\
    (table_bytes sample_table -> exists st', recordSeq st = Some st').
Proof.
  eexists. split; [vm_compute; reflexivity|].
  apply (C9_scale_lookup_within_row sample_table 100 0
           [Reset; Gate; Loop (mkInputs None None (Some 400) true)]).
  - split; [reflexivity|]. repeat constructor.
  - vm_compute. reflexivity.
  - simpl. lia.
  - simpl. discriminate.
Defined.

(** What the assignments of [recordSeq] leave under the cursor: index 0
    for a distance out of range, the clamped mapped index in a scale mode,
    the low byte of the clamped mapped value in linear mode. *)
Lemma stored_content st sts :
  inv st -> 0 <= count st <= 63 -> stored st = Some sts ->
  if (mm st >? TopRange) || (mm st <? 50)
  then load (sequence sts) (count st) = Some 0
  else if negb (NoteMode st =? 7)
  then load (sequence sts) (count st)
       = Some (constrain (map_ (mm st) 50 TopRange 0 (NumberOfNotes st)) 0
                 (NumberOfNotes st))
  else load (sequenceLinear sts) (count st)
       = Some (u8 (constrain (map_ (mm st) 50 TopRange 0 4095) 0 4095)).
Proof.
  intros [H1 H2 H3 H4 H5] Hc. unfold stored.
  destruct ((mm st >? TopRange) || (mm st <? 50));
    [|destruct (negb (NoteMode st =? 7))]; fields;
    rewrite store_in_range by lia; fields; intros E; inversion E; subst sts;
    fields; unfold load; (destruct (Z.leb_spec 0 (count st)); [|lia]).
  - apply list_lookup_insert_eq. lia.
  - rewrite u8_small
      by (pose proof (constrain_range
                        (map_ (mm st) 50 TopRange 0 (NumberOfNotes st)) 0
                        (NumberOfNotes st)); lia).
    apply list_lookup_insert_eq. lia.
  - apply list_lookup_insert_eq. lia.
Qed.

Lemma playSeq_writes_one st st' :
  playSeq st = Some st' -> exists code, PA4 st' = code :: PA4 st.
Proof.
  unfold playSeq. intros E.
  destruct (negb (NoteMode st =? 7)).
  - destruct (load (sequence st) (count st)) as [idx|]; [|discriminate].
    fields.
    destruct (if 0 <=? NoteMode st
              then fullScales st !! Z.to_nat (NoteMode st) else None)
      as [row|]; [|discriminate].
    fields.
    destruct (load row idx) as [note|]; [|discriminate]. fields.
    destruct (Codec.volts_to_DAC _ _ _ _) as [d|]; [|discriminate].
    inversion E; subst. exists d. reflexivity.
  - destruct (load (sequenceLinear st) (count st)) as [v|]; [|discriminate].
    inversion E; subst. exists v. reflexivity.
Qed.

(** A clock edge with the button held: what is recorded, and where. *)
Lemma loop_record_edge i st :
  inv st -> clockInput st = true -> held i = true ->
  0 <= count st <= 63 ->
  table_ok (fullScales st) -> table_bytes (fullScales st) ->
  let st2 := match range i with
             | Some d => readsensor d (ReadKnobs i st)
             | None => ReadKnobs i st
             end in
  exists st' code,
    loop i st = Some st' /\
    PA4 st' = code :: PA4 st /\
    if (mm st2 >? TopRange) || (mm st2 <? 50)
    then load (sequence st') (count st) = Some 0
    else if negb (NoteMode st2 =? 7)
    then load (sequence st') (count st)
         = Some (constrain (map_ (mm st2) 50 TopRange 0 (NumberOfNotes st2))
                   0 (NumberOfNotes st2))
    else load (sequenceLinear st') (count st)
         = Some (u8 (constrain (map_ (mm st2) 50 TopRange 0 4095) 0 4095)).
Proof.
  intros Hinv Hk Hh Hc Hok Hbytes st2. unfold loop. fold st2.
  assert (inv st2 /\ clockInput st2 = true /\ count st2 = count st /\
          fullScales st2 = fullScales st /\ PA4 st2 = PA4 st)
    as (Hinv2 & Hk2 & Hc2 & Hf2 & Hp2).
  { assert (inv (ReadKnobs i st) /\ clockInput (ReadKnobs i st) = true /\
            count (ReadKnobs i st) = count st /\
            fullScales (ReadKnobs i st) = fullScales st /\
            PA4 (ReadKnobs i st) = PA4 st) as (A1 & A2 & A3 & A4 & A5).
    { split; [apply inv_ReadKnobs; assumption|].
      destruct (ReadKnobs_frame i st) as (-> & -> & _ & _ & _ & -> & ->).
      auto. }
    subst st2. destruct (range i); [|auto 10].
    split; [revert A1; apply inv_frame; reflexivity|]. fields. auto 10. }
  clearbody st2. rewrite Hk2, Hh.
  assert (inv (set_clockInput false st2)) as Hinv3
    by (revert Hinv2; apply inv_frame; reflexivity).
  rewrite recordSeq_stored.
  destruct (stored_at_cursor _ Hinv3)
    as (sts & Es & Hinvs & E1 & E2 & E3 & E4 & E5 & E5' & E6);
    [fields; lia|].
  pose proof (stored_content _ sts Hinv3) as Hcontent.
  fields. specialize (Hcontent ltac:(lia) Es).
  rewrite Es. fields.
  destruct (playSeq_succeeds sts Hinvs) as [st5 E];
    [lia | rewrite E4, Hf2; assumption | rewrite E4, Hf2; assumption|].
  rewrite E. fields.
  destruct (playSeq_writes_one sts st5 E) as [code Hcode].
  apply playSeq_frame in E
    as (_ & _ & _ & _ & _ & _ & _ & F8 & F9 & _).
  eexists. exists code. split; [reflexivity|]. fields.
  split; [congruence|].
  rewrite F8, F9, <- Hc2. exact Hcontent.
Qed.

(** *** A reset edge before the first clock edge *)

Lemma run_app evs1 evs2 st :
  run (evs1 ++ evs2) st = run evs1 st ≫= run evs2.
Proof.
  revert st. induction evs1 as [|e evs1 IH]; intros st; [reflexivity|].
  cbn [app run]. destruct (step e st) as [st1|]; [|reflexivity].
  cbn [mbind option_bind]. apply IH.
Qed.

(** Before any clock edge, reset edges and iterations of [loop()] keep
    the clock flag clear and touch no array. *)
Lemma run_before_first_edge evs st :
  Forall (fun e => e <> Gate) evs ->
  inv st -> clockInput st = false -> 0 <= countSize st <= 63 ->
  exists st',
    run evs st = Some st' /\ inv st' /\ clockInput st' = false /\
    0 <= countSize st' <= 63 /\ fullScales st' = fullScales st.
Proof.
  intros Hall. revert st.
  induction Hall as [|e evs He Hrest IH]; intros st Hinv Hk Hs.
  - exists st. auto.
  - cbn [run]. destruct e as [| |i]; [contradiction| |]; cbn [step].
    + fields.
      destruct (IH (reset st)) as (st' & E & A1 & A2 & A3 & A4);
        fields; try assumption.
      { revert Hinv. apply inv_frame; reflexivity. }
      exists st'. auto.
    + destruct (loop_idle i st Hk) as (st1 & E1 & K1 & _ & _ & _ & F1 & _).
      rewrite E1. fields.
      pose proof (loop_inv i st st1 E1 Hinv) as [Hinv1 _].
      pose proof (loop_countSize i st st1 E1 Hinv) as Hsize.
      pose proof (ReadKnobs_within i st Hs) as Hs'.
      destruct (IH st1) as (st' & E & A1 & A2 & A3 & A4);
        try assumption; [rewrite Hsize; exact Hs'|].
      exists st'. split; [exact E|]. split; [exact A1|].
      split; [exact A2|]. split; [exact A3|]. congruence.
Qed.

(** X8.  A reset edge before the first clock edge.  Take any run from
    [setup] in which a reset edge comes before the first clock edge:
    iterations of [loop()] and reset edges, then the reset edge, then
    whatever clock edges, reset edges, knob moves, sensor samples and
    button states follow.  The run completes with no access outside the
    arrays, the cursor ends within the 64 steps and the loop length within
    63. *)
Theorem X8_reset_first_keeps_run_in_bounds
    fs seqLength scalemode before after :
  table_ok fs -> table_bytes fs ->
  Forall (fun e => e <> Gate) before ->
  exists st,
    run (before ++ Reset :: after) (setup fs seqLength scalemode) = Some st /\
    0 <= count st <= 63 /\
    0 <= countSize st <= 63 /\
    inv st.
Proof.
  intros Hok Hbytes Hbefore.
  pose proof (setup_reset_safe fs seqLength scalemode Hok Hbytes)
    as [_ _ Hsize _ _]. fields.
  destruct (run_before_first_edge before (setup fs seqLength scalemode)
              Hbefore (inv_setup _ _ _))
    as (st1 & E1 & Hinv1 & Hk1 & Hs1 & Hf1); [|exact Hsize|].
  { unfold setup.
    destruct (scaleMode_frame scalemode
                (loopLength seqLength (analogWrite 0 (initial fs))))
      as (-> & _).
    destruct (loopLength_frame seqLength (analogWrite 0 (initial fs)))
      as (-> & _).
    reflexivity. }
  rewrite run_app, E1. cbn [mbind option_bind run step]. fields.
  rewrite setup_table in Hf1.
  destruct (run_safe after (reset st1)) as (st & E & [Hinv Hc Hs _ _]).
  { constructor; fields; try (rewrite Hf1; assumption); try assumption;
      [|lia].
    revert Hinv1. apply inv_frame; reflexivity. }
  exists st. auto.
Qed.

(** X8 (witness).  Two idle iterations, one moving the scale knob to
    linear mode and reading the sensor; then the reset edge and two clock
    edges, one recorded at 400 mm, one played after the length knob
    moved. *)
Lemma X8_witness_idle_then_reset :
  exists st,
    run ([Loop (mkInputs (Some 900) None (Some 300) false);
          Loop (mkInputs None None None true)]
         ++ Reset :: [Gate; Loop (mkInputs None None (Some 400) true);
                      Gate; Loop (mkInputs None (Some 900) None false)])
        (setup sample_table 100 0) = Some st /\
    0 <= count st <= 63 /\
    0 <= countSize st <= 63 /\
    inv st.
Proof.
  apply X8_reset_first_keeps_run_in_bounds.
  - split; [reflexivity|]. repeat constructor.
  - vm_compute. repeat constructor; discriminate.
  - repeat constructor; discriminate.
Defined.

End CompleteSketchEdge.

(** ** The earlier sketch: what a play-to-record edge records *)

Section EarlierSketchEdge.
Import Mudras.

Ltac fields :=
  cbn [poo raw_mm mm count countFlag NoteMode countSize dacUnit sequence PA4
       set_poo set_raw_mm set_mm set_count set_countFlag set_NoteMode
       set_countSize set_dacUnit set_sequence analogWrite gate
       mbind option_bind] in *.

(** A clock edge with the button held, after one with the button
    released: the cursor is set to 0, the flag is cleared, and the value
    of the active mode, as the knobs and the sensor left it in this
    iteration, is stored on step 0 and written to the output. *)
Lemma mudras_loop_play_to_record_value i st :
  ready st -> valid i -> poo st = true -> held i = true ->
  countFlag st = 1 ->
  let st2 := match range i with
             | Some d => readsensor d (knobs i st)
             | None => knobs i st
             end in
  exists st' code,
    loop i st = Some st' /\
    count st' = 0 /\
    countFlag st' = 0 /\
    sequence st' =
      <[0%nat := if NoteMode st2 =? 7 then raw_mm st2 else mm st2]>
        (sequence st) /\
    PA4 st' = code :: PA4 st.
Proof.
  intros Hr Hv Hp Hh Hf st2. unfold loop. fold st2.
  assert (ready st2 /\ poo st2 = true /\ countFlag st2 = 1 /\
          sequence st2 = sequence st /\ PA4 st2 = PA4 st)
    as (Hr2 & Hp2 & Hf2 & Hs2 & Ho2).
  { assert (ready (knobs i st) /\ poo (knobs i st) = true /\
            countFlag (knobs i st) = 1 /\
            sequence (knobs i st) = sequence st /\
            PA4 (knobs i st) = PA4 st) as (A1 & A2 & A3 & A4 & A5).
    { split; [apply mudras_ready_knobs; assumption|].
      destruct (mudras_knobs_frame i st) as (-> & _ & -> & -> & ->). auto. }
    subst st2. destruct (range i) as [d|] eqn:Er; [|auto].
    destruct (mudras_readsensor_frame d (knobs i st))
      as (-> & _ & -> & _ & _ & -> & ->).
    split; [|auto]. apply mudras_ready_readsensor; [|assumption].
    apply (proj2 Hv d). exact Er. }
  clearbody st2. rewrite Hp2, Hh. fields.
  pose proof Hr2 as [R1 R2 R3 R4].
  destruct (count st2 + 1 >? countSize st2); fields;
    rewrite Hf2; cbn [Z.eqb Pos.eqb]; fields;
    match goal with
    | |- context [recordSeq ?s] =>
      destruct (mudras_recordSeq_at_cursor s)
        as (st' & E & E1 & E2 & E3 & code & E4)
    end;
    try (constructor; fields; assumption); fields; try lia;
    (exists st', code; split; [exact E|]; split; [exact E2|];
     split; [exact E3|]; split; [|congruence];
     rewrite E1, Hs2; reflexivity).
Qed.

End EarlierSketchEdge.

(** ** The two sketches side by side: recording on a clock edge *)

(** C4 (amended).  In mudras.ino, which keeps the flag [countFlag], a
    clock edge with the button held after an edge with the button released
    sets the cursor to 0, clears the flag and records on step 0: the value
    of the active mode, as knobs and sensor leave it in this iteration, is
    stored there and a code is written to the output.  The complete sketch
    has no such flag: a clock edge with the button held records on the
    current step (index 0 for a distance out of range, the clamped mapped
    index in a scale mode, the low byte of the clamped mapped value in
    linear mode), writes a code to the output, changes no other step of
    either array, and the cursor then advances by one as on every edge;
    there the cursor returns to 0 by wrapping or by the reset input only. *)
Theorem C4_cursor_reset_on_record_needs_flag
    (m : Mudras.state) (mi : Mudras.inputs)
    (f : Firmware.state) (fi : Firmware.inputs) :
  Mudras.ready m -> Mudras.valid mi ->
  Mudras.poo m = true -> Mudras.held mi = true -> Mudras.countFlag m = 1 ->
  Firmware.inv f -> Firmware.clockInput f = true -> Firmware.held fi = true ->
  0 <= Firmware.count f <= 63 ->
  Firmware.table_ok (Firmware.fullScales f) ->
  Firmware.table_bytes (Firmware.fullScales f) ->
  let m2 := match Mudras.range mi with
            | Some d => Mudras.readsensor d (Mudras.knobs mi m)
            | None => Mudras.knobs mi m
            end in
  let f2 := match Firmware.range fi with
            | Some d => Firmware.readsensor d (Firmware.ReadKnobs fi f)
            | None => Firmware.ReadKnobs fi f
            end in
  (exists m' code,
     Mudras.loop mi m = Some m' /\
     Mudras.count m' = 0 /\
     Mudras.countFlag m' = 0 /\
     Mudras.sequence m' =
       <[0%nat := if Mudras.NoteMode m2 =? 7
                  then Mudras.raw_mm m2 else Mudras.mm m2]>
         (Mudras.sequence m) /\
     Mudras.PA4 m' = code :: Mudras.PA4 m) /\
  (exists f' code,
     Firmware.loop fi f = Some f' /\
     Firmware.count f' =
       Firmware.incrementAndWrapCount (Firmware.count f)
         (Firmware.countSize f') /\
     (forall j, j <> Firmware.count f ->
        load (Firmware.sequence f') j = load (Firmware.sequence f) j /\
        load (Firmware.sequenceLinear f') j
          = load (Firmware.sequenceLinear f) j) /\
     Firmware.PA4 f' = code :: Firmware.PA4 f /\
     if (Firmware.mm f2 >? Firmware.TopRange) || (Firmware.mm f2 <? 50)
     then load (Firmware.sequence f') (Firmware.count f) = Some 0
     else if negb (Firmware.NoteMode f2 =? 7)
     then load (Firmware.sequence f') (Firmware.count f)
          = Some (constrain
                    (map_ (Firmware.mm f2) 50 Firmware.TopRange 0
                       (Firmware.NumberOfNotes f2))
                    0 (Firmware.NumberOfNotes f2))
     else load (Firmware.sequenceLinear f') (Firmware.count f)
          = Some (u8 (constrain
                        (map_ (Firmware.mm f2) 50 Firmware.TopRange 0 4095)
                        0 4095))).
Proof.
  intros Hr Hv Hp Hh Hf Hinv Hk Hheld Hc Hok Hbytes m2 f2. split.
  - apply mudras_loop_play_to_record_value; assumption.
  - destruct (loop_clock_edge fi f Hinv Hk Hc Hok Hbytes)
      as (f' & E & _ & _ & _ & E1 & E2).
    destruct (loop_record_edge fi f Hinv Hk Hheld Hc Hok Hbytes)
      as (f'' & code & E' & Hcode & Hcontent).
    rewrite E in E'. inversion E'; subst f''.
    exists f', code. auto.
Qed.

(** C4 (witness).  Both sketches in the middle of a 4-step loop, cursor
    on step 2, button held on the pending clock edge.  The earlier sketch
    stores the index 10 of the hand at 400 mm on step 0; the complete
    sketch stores the index 12 of its hand at 400 mm on step 2. *)
Lemma C4_witness_mid_loop :
  (exists m' code,
     Mudras.loop (Mudras.mkInputs None None (Some 400) true) Mudras.mid_loop
       = Some m' /\
     Mudras.count m' = 0 /\
     Mudras.countFlag m' = 0 /\
     Mudras.sequence m' =
       <[0%nat := 10]> (Mudras.sequence Mudras.mid_loop) /\
     Mudras.PA4 m' = code :: Mudras.PA4 Mudras.mid_loop) /\
  (exists f' code,
     Firmware.loop (Firmware.mkInputs None None None true) Firmware.mid_loop
       = Some f' /\
     Firmware.count f' =
       Firmware.incrementAndWrapCount (Firmware.count Firmware.mid_loop)
         (Firmware.countSize f') /\
     (forall j, j <> Firmware.count Firmware.mid_loop ->
        load (Firmware.sequence f') j
          = load (Firmware.sequence Firmware.mid_loop) j /\
        load (Firmware.sequenceLinear f') j
          = load (Firmware.sequenceLinear Firmware.mid_loop) j) /\
     Firmware.PA4 f' = code :: Firmware.PA4 Firmware.mid_loop /\
     load (Firmware.sequence f') (Firmware.count Firmware.mid_loop)
       = Some 12).
Proof.
  apply (C4_cursor_reset_on_record_needs_flag
           Mudras.mid_loop (Mudras.mkInputs None None (Some 400) true)
           Firmware.mid_loop (Firmware.mkInputs None None None true)).
  - constructor; simpl; (reflexivity || lia).
  - split; simpl; intros x E; inversion E; lia.
  - reflexivity.
  - reflexivity.
  - reflexivity.
  - constructor; simpl; [reflexivity | reflexivity | | lia | lia].
    repeat constructor; lia.
  - reflexivity.
  - reflexivity.
  - simpl. lia.
  - split; [reflexivity|]. repeat constructor.
  - vm_compute. repeat constructor; discriminate.
Defined.
